(** * image_compressor: the upload handler and its in-memory download cache

    A shallow embedding of [app.py]: the configuration constants, the
    helpers [_cleanup_expired_cache], [_generate_download_id] and
    [_safe_output_extension], and the three routes [index],
    [compress_image] and [download_image].

    Conventions.
    - Python [int] is [Z]; Python [float] is IEEE binary64, taken from the
      standard library's executable specification [SpecFloat]
      ([prec = 53], [emax = 1024]).
    - [str] and [bytes] are [string] and [list Byte.byte].
    - A naive UTC [datetime] is its number of microseconds since the epoch,
      a [Z]; [timedelta(seconds=n)] is [n * 1000000].
    - [app.download_cache] is a [gmap string DownloadEntry].
    - The clock, the random source of [uuid.uuid4], the builtin [int] and
      Pillow are not part of the program: clock readings and the random
      bits are inputs of each handler, [int] is a function parameter and
      Pillow is a record of functions.
    - A handler takes the cache and returns the new cache with its
      response; an exception that no [except] of the handler catches is
      the response [Unhandled]. *)

From Stdlib Require Import ZArith Lia List Bool Ascii String DecimalString SpecFloat.
From stdpp Require Import gmap strings.

Local Open Scope Z_scope.

(** ** Configuration *)

Module Config.
Definition ALLOWED_OUTPUT_FORMATS : list string := ["JPEG"; "PNG"; "WEBP"]%string.
Definition DEFAULT_QUALITY : Z := 40.
Definition MAX_QUALITY : Z := 100.
Definition MIN_QUALITY : Z := 1.
Definition MAX_CONTENT_LENGTH : Z := 10 * 1024 * 1024.
Definition DOWNLOAD_CACHE_TTL_SECONDS : Z := 300.
End Config.
Import Config.

(** ** Python exceptions as an error monad *)

Inductive exn_class : Type :=
  | ZeroDivisionError
  | OverflowError
  | ValueError
  | OSError
  | UnidentifiedImageError
  | OtherException.

(** An exception: its class and [str(e)]. *)
Record pyexn : Type := mk_exn { exn_cls : exn_class; exn_str : string }.

Inductive res (A : Type) : Type :=
  | Ok (a : A)
  | Raise (e : pyexn).
Arguments Ok {A} a.
Arguments Raise {A} e.

Definition res_bind {A B : Type} (r : res A) (k : A -> res B) : res B :=
  match r with
  | Ok a => k a
  | Raise e => Raise e
  end.

Notation "'let*' x ':=' r 'in' k" := (res_bind r (fun x => k))
  (at level 10, x name, r at level 100, k at level 200).

(** ** Python floats *)

Module PyFloat.

Definition float : Type := spec_float.

Definition prec : Z := 53.
Definition emax : Z := 1024.

Definition fdiv : float -> float -> float := SFdiv prec emax.
Definition fmul : float -> float -> float := SFmul prec emax.
Definition fsub : float -> float -> float := SFsub prec emax.
Definition flt : float -> float -> bool := SFltb.

Definition is_zero (x : float) : bool :=
  match x with
  | S754_zero _ => true
  | _ => false
  end.

(** [float(n)] for an [int]: the nearest double, ties to even;
    [OverflowError] when the int is too large. *)
Definition of_int (n : Z) : res float :=
  match binary_normalize prec emax n 0 false with
  | S754_infinity _ => Raise (mk_exn OverflowError "int too large to convert to float")
  | x => Ok x
  end.

(** [x / y] on floats. *)
Definition truediv (x y : float) : res float :=
  if is_zero y then Raise (mk_exn ZeroDivisionError "float division by zero")
  else Ok (fdiv x y).

(** [a / b] on ints small enough to convert exactly. *)
Definition int_truediv (a b : Z) : res float :=
  let* x := of_int a in
  let* y := of_int b in
  truediv x y.

(** [n / y] for an int [n] and a float [y]: the int is converted first. *)
Definition int_float_truediv (n : Z) (y : float) : res float :=
  let* x := of_int n in truediv x y.

(** Quotient [n / d] for [0 < d], rounded to the nearest integer, ties to
    the even one. *)
Definition round_half_even_div (n d : Z) : Z :=
  let q := n / d in
  let r := n mod d in
  match 2 * r ?= d with
  | Lt => q
  | Gt => q + 1
  | Eq => if Z.even q then q else q + 1
  end.

(** [round(x)] with one argument: an [int], ties to even. *)
Definition round_int (x : float) : res Z :=
  match x with
  | S754_zero _ => Ok 0
  | S754_infinity _ => Raise (mk_exn OverflowError "cannot convert float infinity to integer")
  | S754_nan => Raise (mk_exn ValueError "cannot convert float NaN to integer")
  | S754_finite s m e =>
      let n := cond_Zopp s (Zpos m) in
      Ok (if 0 <=? e then n * 2 ^ e else round_half_even_div n (2 ^ (- e)))
  end.

(** [round(x, ndigits)] for [ndigits >= 0]: the exact value of [x] is
    rounded to [ndigits] decimals, ties to even, and the decimal is
    converted back to the nearest double. *)
Definition round_ndigits (x : float) (ndigits : N) : float :=
  match x with
  | S754_finite s m e =>
      let scale := 10 ^ Z.of_N ndigits in
      let n := Zpos m * scale in
      let d := if 0 <=? e then n * 2 ^ e else round_half_even_div n (2 ^ (- e)) in
      match d with
      | Zpos p => SFdiv prec emax (S754_finite s p 0) (S754_finite false (Z.to_pos scale) 0)
      | _ => S754_zero s
      end
  | _ => x
  end.

End PyFloat.

Import PyFloat.

(** ** Text helpers

    [str.upper] and [str.lower] on the ASCII letters; other bytes are left
    as they are, so on text with characters outside ASCII [upper] and
    [lower] are not Python's functions.  The handlers only compare the
    results with the ASCII literals of the format names, and a character
    outside ASCII never has a string of the letters [J], [P], [E], [G],
    [N], [W], [B] as its upper case: with such a character in it the
    format is refused by the code and by this model alike. *)

Module PyStr.

Definition upper_ascii (c : ascii) : ascii :=
  let n := nat_of_ascii c in
  if ((97 <=? n) && (n <=? 122))%nat then ascii_of_nat (n - 32) else c.

Definition lower_ascii (c : ascii) : ascii :=
  let n := nat_of_ascii c in
  if ((65 <=? n) && (n <=? 90))%nat then ascii_of_nat (n + 32) else c.

Fixpoint upper (s : string) : string :=
  match s with
  | EmptyString => EmptyString
  | String c s' => String (upper_ascii c) (upper s')
  end.

Fixpoint lower (s : string) : string :=
  match s with
  | EmptyString => EmptyString
  | String c s' => String (lower_ascii c) (lower s')
  end.

(** [x in xs] for a tuple or set of strings. *)
Definition str_in (x : string) (xs : list string) : bool :=
  bool_decide (x ∈ xs).

(** ['%032x' % n] style formatting: [width] lowercase hex digits of [n]. *)
Definition hex_digit (d : Z) : ascii :=
  if d <? 10 then ascii_of_nat (Z.to_nat (48 + d)) else ascii_of_nat (Z.to_nat (87 + d)).

Fixpoint hex_fixed (width : nat) (n : Z) (acc : string) : string :=
  match width with
  | O => acc
  | S w => hex_fixed w (n / 16) (String (hex_digit (n mod 16)) acc)
  end.

End PyStr.
Import PyStr.

(** ** Helpers of the application *)

(** [uuid.UUID(bytes=os.urandom(16), version=4).int]: the variant and
    version bits are forced on the 128 random bits [r]. *)
Definition uuid4_int (r : Z) : Z :=
  let r := Z.land r (Z.ones 128) in
  let r := Z.land r (Z.lnot (Z.shiftl 0xc000 48)) in
  let r := Z.lor r (Z.shiftl 0x8000 48) in
  let r := Z.land r (Z.lnot (Z.shiftl 0xf000 64)) in
  Z.lor r (Z.shiftl 4 76).

(** [_generate_download_id]: [uuid.uuid4().hex]; [random] is the value of
    [os.urandom(16)] read as an integer. *)
Definition _generate_download_id (random : Z) : string :=
  hex_fixed 32 (uuid4_int random) "".

Definition _safe_output_extension (fmt : string) : string :=
  let fmt := upper fmt in
  if String.eqb fmt "JPEG" then "jpg"
  else if String.eqb fmt "PNG" then "png"
  else if String.eqb fmt "WEBP" then "webp"
  else lower fmt.

(** [max(MIN_QUALITY, min(MAX_QUALITY, quality))]. *)
Definition clamp_quality (quality : Z) : Z :=
  Z.max MIN_QUALITY (Z.min MAX_QUALITY quality).

Definition f100 : float := Eval vm_compute in binary_normalize prec emax 100 0 false.
Definition f1024 : float := Eval vm_compute in binary_normalize prec emax 1024 0 false.
Definition fzero : float := S754_zero false.

(** [max(0, min(9, round((100 - quality) / (100 / 9))))]. *)
Definition png_compress_level (quality : Z) : res Z :=
  let* step := int_truediv 100 9 in
  let* x := int_float_truediv (100 - quality) step in
  let* r := round_int x in
  Ok (Z.max 0 (Z.min 9 r)).

(** The [if orig_size_kb > 0: ... else: ...] statement of [compress_image]. *)
Definition compression_percent (orig_size_kb compressed_size_kb : float) : res float :=
  if flt fzero orig_size_kb then
    truediv (fmul f100 (fsub orig_size_kb compressed_size_kb)) orig_size_kb
  else Ok fzero.

(** ** The download cache

    [DownloadEntry = Tuple[bytes, str, str, datetime]]. *)

Record DownloadEntry : Type := mk_entry {
  entry_bytes : list Byte.byte;
  entry_mimetype : string;
  entry_filename : string;
  entry_expiry : Z
}.

Abbreviation Cache := (gmap string DownloadEntry).

Definition timedelta_seconds (seconds : Z) : Z := seconds * 1000000.

(** [_cleanup_expired_cache]: [now] is the value of [datetime.utcnow()].
    The keys to drop are collected first, then popped one by one. *)
Definition expired_keys (now : Z) (cache : Cache) : list string :=
  (filter (fun kv : string * DownloadEntry => entry_expiry kv.2 <= now) (map_to_list cache)).*1.

Definition _cleanup_expired_cache (now : Z) (cache : Cache) : Cache :=
  foldl (fun c k => delete k c) cache (expired_keys now cache).

(** ** Requests and responses *)

(** [file.stream]: its bytes, and whether [seek] and [tell] work on it. *)
Record Stream : Type := mk_stream {
  stream_bytes : list Byte.byte;
  stream_seekable : bool
}.

Definition unseekable : pyexn := mk_exn OSError "underlying stream is not seekable".

(** [stream.seek(0, os.SEEK_END); stream.tell()]. *)
Definition stream_size (s : Stream) : res Z :=
  if stream_seekable s then Ok (Z.of_nat (length (stream_bytes s))) else Raise unseekable.

(** [stream.seek(0)]. *)
Definition stream_rewind (s : Stream) : res unit :=
  if stream_seekable s then Ok tt else Raise unseekable.

(** An uploaded file part.  [bool(file)] is [bool(file.filename)]. *)
Record FileStorage : Type := mk_file {
  fs_filename : string;
  fs_stream : Stream
}.

(** The parsed multipart request: [request.files.get("file")],
    [request.form.get("format")] and [request.form.get("quality")].  A body
    larger than [MAX_CONTENT_LENGTH] is not parsed: the framework answers it
    through [request_entity_too_large]. *)
Record Request : Type := mk_request {
  files_file : option FileStorage;
  form_format : option string;
  form_quality : option string
}.

(** The [result] dict handed to the template. *)
Record CompressResult : Type := mk_result {
  original_kb : float;
  compressed_kb : float;
  percent : float;
  format : string;
  quality : Z;
  download_id : string;
  filename : string
}.

Inductive Response : Type :=
  | RedirectIndex (flashed : string)
      (* flash(flashed, "error"); return redirect(url_for("index")) *)
  | RenderIndex (result : option CompressResult)
      (* render_template("index.html", result=result, ...) *)
  | SendFile (data : list Byte.byte) (mimetype download_name : string)
      (* send_file(BytesIO(data), mimetype=..., as_attachment=True, download_name=...) *)
  | Unhandled (e : pyexn).
      (* an exception that leaves the view function *)

(** ** Pillow *)

(** The keyword arguments of [img.save]. *)
Record SaveKwargs : Type := mk_kwargs {
  kw_format : string;
  kw_quality : option Z;
  kw_optimize : option bool;
  kw_compress_level : option Z
}.

Record Pillow : Type := mk_pillow {
  image : Type;
  Image_open : Stream -> res image;
  Image_verify : image -> res unit;
  Image_mode : image -> string;
  Image_convert : image -> string -> res image;
  Image_save : image -> SaveKwargs -> res (list Byte.byte)
}.

(** The modes of Pillow that carry an alpha band. *)
Definition mode_has_alpha (mode : string) : bool :=
  str_in mode ["RGBA"; "LA"; "PA"; "RGBa"; "La"].

(** The test of the [if] that guards [img.convert("RGB")]. *)
Definition needs_rgb_conversion (mode out_format : string) : bool :=
  str_in mode ["RGBA"; "P"] && negb (String.eqb out_format "PNG").

(** The [save_kwargs] dict built for [out_format] and the clamped [quality]. *)
Definition build_save_kwargs (out_format : string) (quality : Z) : res SaveKwargs :=
  if str_in out_format ["JPEG"; "WEBP"] then
    Ok (mk_kwargs out_format (Some quality) (Some true) None)
  else if String.eqb out_format "PNG" then
    let* compress_level := png_compress_level quality in
    Ok (mk_kwargs out_format None (Some true) (Some compress_level))
  else Ok (mk_kwargs out_format None None None).

(** [filename] and [mimetype] of the stored entry. *)
Definition output_filename (out_format : string) : string :=
  "compressed." +:+ _safe_output_extension out_format.

Definition output_mimetype (out_format : string) : string :=
  let ext := _safe_output_extension out_format in
  "image/" +:+ (if negb (String.eqb ext "jpg") then ext else "jpeg").

(** ** Routes *)

Section Routes.

(** The builtin [int] applied to a [str]: [None] stands for [ValueError]. *)
Variable int_of_str : string -> option Z.
Variable pil : Pillow.

(** [int(request.form.get("quality", DEFAULT_QUALITY))] under its
    [try ... except (TypeError, ValueError)]. *)
Definition requested_quality (field : option string) : Z :=
  match field with
  | None => DEFAULT_QUALITY
  | Some s =>
      match int_of_str s with
      | Some q => q
      | None => DEFAULT_QUALITY
      end
  end.

(** [(request.form.get("format") or "JPEG").upper()]. *)
Definition requested_format (field : option string) : string :=
  upper (match field with
         | None | Some "" => "JPEG"
         | Some s => s
         end).

(** The measurement of the upload under its [try ... except Exception]. *)
Definition measure_orig_size_kb (stream : Stream) : float :=
  match (let* orig_bytes := stream_size stream in
         let* _ := stream_rewind stream in
         int_float_truediv orig_bytes f1024) with
  | Ok kb => kb
  | Raise _ => fzero
  end.

(** [Image.open(file.stream)] then [img.verify()]. *)
Definition validate_image (stream : Stream) : res unit :=
  let* img := Image_open pil stream in Image_verify pil img.

Definition validation_message (e : pyexn) : string :=
  match exn_cls e with
  | UnidentifiedImageError => "Uploaded file is not a valid image."
  | _ => "Error validating image: " +:+ exn_str e
  end.

(** The [if ... : img = img.convert("RGB")] statement; [convert] decodes
    the pixels and may raise. *)
Definition flatten_for_output (img : image pil) (out_format : string)
    : res (image pil) :=
  if needs_rgb_conversion (Image_mode pil img) out_format
  then Image_convert pil img "RGB"
  else Ok img.

(** The end of [compress_image], from [img_io.seek(0)] on: statistics,
    the insert into the cache and the [result] dict. *)
Definition publish (orig_size_kb : float) (compressed_bytes : list Byte.byte)
    (out_format : string) (quality : Z) (random now : Z) (cache : Cache)
    : Cache * Response :=
  match (let* compressed_size_kb :=
           int_float_truediv (Z.of_nat (length compressed_bytes)) f1024 in
         let* compression_percent := compression_percent orig_size_kb compressed_size_kb in
         Ok (compressed_size_kb, compression_percent)) with
  | Raise e => (cache, Unhandled e)
  | Ok (compressed_size_kb, compression_percent) =>
      let download_id := _generate_download_id random in
      let filename := output_filename out_format in
      let mimetype := output_mimetype out_format in
      let expiry := now + timedelta_seconds DOWNLOAD_CACHE_TTL_SECONDS in
      let cache := <[download_id := mk_entry compressed_bytes mimetype filename expiry]> cache in
      (cache,
       RenderIndex (Some {|
         original_kb := round_ndigits orig_size_kb 2;
         compressed_kb := round_ndigits compressed_size_kb 2;
         percent := round_ndigits compression_percent 2;
         format := out_format;
         quality := quality;
         download_id := download_id;
         filename := filename |}))
  end.

(** [index]: [GET /]. *)
Definition index (now : Z) (cache : Cache) : Cache * Response :=
  (_cleanup_expired_cache now cache, RenderIndex None).

(** [compress_image]: [POST /compress].  [now_sweep] and [now_store] are
    the two readings of the clock, [random] feeds [uuid4]. *)
Definition compress_image (req : Request) (now_sweep random now_store : Z)
    (cache : Cache) : Cache * Response :=
  let cache := _cleanup_expired_cache now_sweep cache in
  match files_file req with
  | None => (cache, RedirectIndex "No file part in request.")
  | Some file =>
  if String.eqb (fs_filename file) "" then (cache, RedirectIndex "No file selected.") else
  let out_format := requested_format (form_format req) in
  if negb (str_in out_format ALLOWED_OUTPUT_FORMATS)
  then (cache, RedirectIndex "Unsupported output format selected.") else
  let quality := clamp_quality (requested_quality (form_quality req)) in
  let orig_size_kb := measure_orig_size_kb (fs_stream file) in
  match validate_image (fs_stream file) with
  | Raise e => (cache, RedirectIndex (validation_message e))
  | Ok _ =>
  match stream_rewind (fs_stream file) with
  | Raise e => (cache, Unhandled e)
  | Ok _ =>
  match Image_open pil (fs_stream file) with
  | Raise e => (cache, RedirectIndex ("Cannot open image after verification: " +:+ exn_str e))
  | Ok img =>
  match flatten_for_output img out_format with
  | Raise e => (cache, Unhandled e)
  | Ok img =>
  match build_save_kwargs out_format quality with
  | Raise e => (cache, Unhandled e)
  | Ok save_kwargs =>
  match Image_save pil img save_kwargs with
  | Raise e => (cache, RedirectIndex ("Error saving compressed image: " +:+ exn_str e))
  | Ok compressed_bytes =>
      publish orig_size_kb compressed_bytes out_format quality random now_store cache
  end end end end end end
  end.

(** [download_image]: [GET /download/<download_id>].  [now_sweep] and
    [now_check] are the two readings of the clock. *)
Definition download_image (download_id : string) (now_sweep now_check : Z)
    (cache : Cache) : Cache * Response :=
  let cache := _cleanup_expired_cache now_sweep cache in
  match cache !! download_id with
  | None => (cache, RedirectIndex "Download is no longer available or has expired.")
  | Some entry =>
      let cache := delete download_id cache in
      if entry_expiry entry <=? now_check
      then (cache, RedirectIndex "Download has expired.")
      else (cache, SendFile (entry_bytes entry) (entry_mimetype entry) (entry_filename entry))
  end.

(** The handler of error 413. *)
Definition request_entity_too_large (cache : Cache) : Cache * Response :=
  (cache,
   RedirectIndex ("Uploaded file is too large. Max allowed size: "
                  +:+ NilZero.string_of_int (Z.to_int (MAX_CONTENT_LENGTH / (1024 * 1024)))
                  +:+ " MB.")).

(** *** Sequences of requests against the one cache of the process *)

Inductive Event : Type :=
  | GetIndex (now : Z)
  | PostCompress (req : Request) (now_sweep random now_store : Z)
  | GetDownload (download_id : string) (now_sweep now_check : Z).

Definition handle (ev : Event) (cache : Cache) : Cache * Response :=
  match ev with
  | GetIndex now => index now cache
  | PostCompress req now_sweep random now_store =>
      compress_image req now_sweep random now_store cache
  | GetDownload download_id now_sweep now_check =>
      download_image download_id now_sweep now_check cache
  end.

Fixpoint run (evs : list Event) (cache : Cache) : Cache :=
  match evs with
  | [] => cache
  | ev :: evs' => run evs' (handle ev cache).1
  end.

End Routes.

(** ** Vocabulary of the statements *)

Section Vocabulary.

Variable int_of_str : string -> option Z.
Variable pil : Pillow.

(** The upload passed the checks on the file part and on the format. *)
Definition accepted (req : Request) (file : FileStorage) : Prop :=
  files_file req = Some file
  /\ fs_filename file <> ""
  /\ requested_format (form_format req) ∈ ALLOWED_OUTPUT_FORMATS.

(** The ways an upload fails validation or transcoding, each with the
    message flashed to the user. *)
Inductive upload_failure (req : Request) : string -> Prop :=
  | missing_file_part :
      files_file req = None ->
      upload_failure req "No file part in request."
  | empty_filename file :
      files_file req = Some file ->
      fs_filename file = "" ->
      upload_failure req "No file selected."
  | unsupported_format file :
      files_file req = Some file ->
      fs_filename file <> "" ->
      requested_format (form_format req) ∉ ALLOWED_OUTPUT_FORMATS ->
      upload_failure req "Unsupported output format selected."
  | undecodable_image file e :
      accepted req file ->
      validate_image pil (fs_stream file) = Raise e ->
      upload_failure req (validation_message e)
  | unreadable_after_verify file e :
      accepted req file ->
      validate_image pil (fs_stream file) = Ok tt ->
      stream_rewind (fs_stream file) = Ok tt ->
      Image_open pil (fs_stream file) = Raise e ->
      upload_failure req ("Cannot open image after verification: " +:+ exn_str e)
  | encoder_failure file img flat save_kwargs e :
      accepted req file ->
      validate_image pil (fs_stream file) = Ok tt ->
      stream_rewind (fs_stream file) = Ok tt ->
      Image_open pil (fs_stream file) = Ok img ->
      flatten_for_output pil img (requested_format (form_format req)) = Ok flat ->
      build_save_kwargs (requested_format (form_format req))
        (clamp_quality (requested_quality int_of_str (form_quality req))) = Ok save_kwargs ->
      Image_save pil flat save_kwargs = Raise e ->
      upload_failure req ("Error saving compressed image: " +:+ exn_str e).

(** The request computes [download_id] as the key of its insert. *)
Definition may_insert (download_id : string) (ev : Event) : Prop :=
  match ev with
  | PostCompress _ _ random _ => _generate_download_id random = download_id
  | _ => False
  end.

End Vocabulary.

(** The three pairs of suggested file name and mime type. *)
Definition well_named (e : DownloadEntry) : Prop :=
  (entry_filename e = "compressed.jpg" /\ entry_mimetype e = "image/jpeg")
  \/ (entry_filename e = "compressed.png" /\ entry_mimetype e = "image/png")
  \/ (entry_filename e = "compressed.webp" /\ entry_mimetype e = "image/webp").

(** The answer of [download_image] to an id it does not find. *)
Definition unavailable : Response :=
  RedirectIndex "Download is no longer available or has expired.".

(** The caller-visible outcome of a download that is not served: the
    redirect to the index page with an error flashed. *)
Definition not_available (r : Response) : Prop :=
  exists msg : string, r = RedirectIndex msg.

(** The level of the PNG writer as the specification words it,
    [round((100 - quality) / (100/9))] clamped to [0,9], in exact rational
    arithmetic: [(100 - quality) / (100/9) = 9 * (100 - quality) / 100],
    rounded to the nearest integer, ties to even. *)
Definition spec_png_level (quality : Z) : Z :=
  Z.max 0 (Z.min 9 (round_half_even_div (9 * (100 - quality)) 100)).

(** "Rounded to 2 decimal places", in the words of the specification and
    without reference to [round_ndigits]: [y] is the double nearest to
    [d / 100], where [d] is the integer nearest to a hundred times the
    magnitude [m * 2^e] of [x], the even one of the two at a tie; zeros,
    infinities and NaN are left as they are. *)
Definition rounded_to_hundredths (x y : float) : Prop :=
  match x with
  | S754_finite s m e =>
      exists d : Z,
        0 <= d
        /\ (0 <= e -> d = 100 * Zpos m * 2 ^ e)
        /\ (e < 0 -> 2 * Z.abs (100 * Zpos m - d * 2 ^ (- e)) <= 2 ^ (- e))
        /\ (e < 0 -> 2 * Z.abs (100 * Zpos m - d * 2 ^ (- e)) = 2 ^ (- e) ->
            Z.even d = true)
        /\ y = match d with
               | Zpos p => SFdiv 53 1024 (S754_finite s p 0) (S754_finite false 100 0)
               | _ => S754_zero s
               end
  | _ => y = x
  end.

(** The qualities that survive the clamp. *)
Definition quality_range : list Z := map Z.of_nat (seq 1 100).

(** ** A runnable instance

    A reading of [int] on ASCII text and a miniature codec standing for
    Pillow, so that the routes can be evaluated on concrete requests. *)

Module Sample.

Definition is_space (c : ascii) : bool :=
  let n := nat_of_ascii c in
  (((9 <=? n) && (n <=? 13)) || ((28 <=? n) && (n <=? 32)))%nat.

Fixpoint lstrip (s : string) : string :=
  match s with
  | String c s' => if is_space c then lstrip s' else s
  | EmptyString => EmptyString
  end.

Definition strip (s : string) : string :=
  String.rev (lstrip (String.rev (lstrip s))).

Definition digit_of (c : ascii) : option Z :=
  let n := nat_of_ascii c in
  if ((48 <=? n) && (n <=? 57))%nat then Some (Z.of_nat (n - 48)) else None.

(** Decimal digits, single underscores allowed between two digits. *)
Fixpoint digits (s : string) (acc : Z) (after_digit : bool) : option Z :=
  match s with
  | EmptyString => if after_digit then Some acc else None
  | String c s' =>
      match digit_of c with
      | Some d => digits s' (10 * acc + d) true
      | None =>
          if Ascii.eqb c "_" && after_digit then digits s' acc false else None
      end
  end.

(** [int(s)] in base 10. *)
Definition int_of_str (s : string) : option Z :=
  match strip s with
  | String "-" s' => Z.opp <$> digits s' 0 false
  | String "+" s' => digits s' 0 false
  | s' => digits s' 0 false
  end.

(** An image is a mode and its pixel bytes; the first byte of a file
    names the mode. *)
Definition mode_of_tag (b : Byte.byte) : option string :=
  match b with
  | Byte.x52 => Some "RGB"
  | Byte.x41 => Some "RGBA"
  | Byte.x50 => Some "P"
  | Byte.x4c => Some "LA"
  | Byte.x47 => Some "L"
  | _ => None
  end.

Definition cannot_identify : pyexn :=
  mk_exn UnidentifiedImageError "cannot identify image file".

Definition open (s : Stream) : res (string * list Byte.byte) :=
  if negb (stream_seekable s) then Raise unseekable else
  match stream_bytes s with
  | b :: pixels =>
      match mode_of_tag b with
      | Some m => Ok (m, pixels)
      | None => Raise cannot_identify
      end
  | [] => Raise cannot_identify
  end.

(** A file that ends after its header passes [open] and [verify], which
    do not read the pixels; reading them fails. *)
Definition truncated : pyexn := mk_exn OSError "image file is truncated".

Definition load (img : string * list Byte.byte) : res (list Byte.byte) :=
  match img.2 with
  | [] => Raise truncated
  | pixels => Ok pixels
  end.

Definition convert (img : string * list Byte.byte) (mode : string)
    : res (string * list Byte.byte) :=
  let* pixels := load img in Ok (mode, pixels).

(** The JPEG writer refuses modes with an alpha band. *)
Definition save (img : string * list Byte.byte) (kw : SaveKwargs) : res (list Byte.byte) :=
  let* pixels := load img in
  if String.eqb (kw_format kw) "JPEG" && mode_has_alpha img.1
  then Raise (mk_exn OSError ("cannot write mode " +:+ img.1 +:+ " as JPEG"))
  else Ok pixels.

Definition codec : Pillow :=
  {| image := string * list Byte.byte;
     Image_open := open;
     Image_verify := fun _ => Ok tt;
     Image_mode := fst;
     Image_convert := convert;
     Image_save := save |}.

Definition upload (name : string) (content : list Byte.byte)
    (fmt quality : option string) : Request :=
  mk_request (Some (mk_file name (mk_stream content true))) fmt quality.

(** An RGB image of three bytes, an RGBA one, a grey one with alpha, a
    text file, a palette image cut off after its header, and an RGB image
    of 128 bytes, an eighth of a kilobyte. *)
Definition rgb_file : list Byte.byte := [Byte.x52; Byte.x01; Byte.x02; Byte.x03].
Definition rgba_file : list Byte.byte := [Byte.x41; Byte.x01; Byte.x02; Byte.x03; Byte.xff].
Definition la_file : list Byte.byte := [Byte.x4c; Byte.x01; Byte.xff].
Definition text_file : list Byte.byte := [Byte.x68; Byte.x69].
Definition truncated_palette_file : list Byte.byte := [Byte.x50].
Definition eighth_kb_file : list Byte.byte := Byte.x52 :: repeat Byte.x01 127.

End Sample.

(** ** Vocabulary of the further properties *)

(** The finite positive float [x] is exactly the rational [num / den]. *)
Definition has_value (x : float) (num den : Z) : Prop :=
  exists (m : positive) (e : Z),
    x = S754_finite false m e /\ e <= 0 /\ Zpos m * den = num * 2 ^ (- e).

(** The request is a download of [download_id]. *)
Definition downloads (download_id : string) (ev : Event) : Prop :=
  match ev with
  | GetDownload id _ _ => id = download_id
  | _ => False
  end.

(** The clock reading of the sweep that opens the request. *)
Definition sweep_time (ev : Event) : Z :=
  match ev with
  | GetIndex now => now
  | PostCompress _ now_sweep _ _ => now_sweep
  | GetDownload _ now_sweep _ => now_sweep
  end.

Fixpoint count_uploads (evs : list Event) : nat :=
  match evs with
  | [] => 0%nat
  | PostCompress _ _ _ _ :: evs' => S (count_uploads evs')
  | _ :: evs' => count_uploads evs'
  end.

(** The characters [0-9a-f]. *)
Definition is_lower_hex (c : ascii) : bool :=
  let n := nat_of_ascii c in
  (((48 <=? n) && (n <=? 57)) || ((97 <=? n) && (n <=? 102)))%nat.

(** The characters of ASCII, on which [upper] and [lower] are [str.upper]
    and [str.lower]. *)
Definition is_ascii_char (c : ascii) : bool := (nat_of_ascii c <? 128)%nat.

Fixpoint string_forallb (f : ascii -> bool) (s : string) : bool :=
  match s with
  | EmptyString => true
  | String c s' => f c && string_forallb f s'
  end.


(** * Properties *)

(** ** The expiry sweep *)

Section Sweep.

Implicit Types (cache : Cache) (k : string) (now : Z).

Lemma foldl_delete_lookup (ks : list string) cache k :
  foldl (fun c k' => delete k' c) cache ks !! k
  = if decide (k ∈ ks) then None else cache !! k.
Proof.
  revert cache. induction ks as [|k' ks IH]; intros cache.
  - simpl. destruct (decide (k ∈ [])) as [Hin|_]; [by apply elem_of_nil in Hin | done].
  - change (foldl (fun c k' => delete k' c) (delete k' cache) ks !! k
            = if decide (k ∈ k' :: ks) then None else cache !! k).
    rewrite IH.
    destruct (decide (k ∈ ks)) as [Hin|Hnin], (decide (k ∈ k' :: ks)) as [Hin'|Hnin'];
      try done.
    + exfalso. apply Hnin'. by right.
    + apply elem_of_cons in Hin' as [->|?]; [apply lookup_delete_eq | done].
    + rewrite lookup_delete_ne; [done |]. intros ->. apply Hnin'. by left.
Qed.

Lemma elem_of_expired_keys now cache k :
  k ∈ expired_keys now cache
  <-> exists e, cache !! k = Some e /\ entry_expiry e <= now.
Proof.
  unfold expired_keys. rewrite list_elem_of_fmap. split.
  - intros [[k' e] [-> [Hexp Hin]%list_elem_of_filter]].
    apply elem_of_map_to_list in Hin. by exists e.
  - intros (e & Hk & Hexp). exists (k, e). split; [done |].
    apply list_elem_of_filter. split; [done |].
    by apply elem_of_map_to_list.
Qed.

(** The sweep keeps an entry exactly when [now < expiry]. *)
Lemma cleanup_lookup now cache k :
  _cleanup_expired_cache now cache !! k
  = match cache !! k with
    | Some e => if decide (entry_expiry e <= now) then None else Some e
    | None => None
    end.
Proof.
  unfold _cleanup_expired_cache. rewrite foldl_delete_lookup.
  destruct (decide (k ∈ expired_keys now cache)) as [Hin|Hnin].
  - apply elem_of_expired_keys in Hin as (e & -> & Hexp).
    by rewrite decide_True.
  - destruct (cache !! k) as [e|] eqn:Hk; [|done].
    rewrite decide_False; [done |].
    intros Hexp. apply Hnin, elem_of_expired_keys. eauto.
Qed.

Lemma cleanup_lookup_Some now cache k e :
  _cleanup_expired_cache now cache !! k = Some e
  <-> cache !! k = Some e /\ now < entry_expiry e.
Proof.
  rewrite cleanup_lookup. destruct (cache !! k) as [e'|]; [| split; [discriminate | by intros [? _]]].
  destruct (decide (entry_expiry e' <= now)); split.
  - discriminate.
  - intros [[= ->] ?]. lia.
  - intros [= ->]. split; [done | lia].
  - by intros [[= ->] _].
Qed.

Lemma cleanup_lookup_None now cache k :
  cache !! k = None -> _cleanup_expired_cache now cache !! k = None.
Proof. intros Hk. by rewrite cleanup_lookup, Hk. Qed.

(** The loop of pops is the filter of the map. *)
Lemma cleanup_as_filter now cache :
  _cleanup_expired_cache now cache
  = filter (fun kv : string * DownloadEntry => now < entry_expiry kv.2) cache.
Proof.
  apply map_eq. intros k. apply option_eq. intros e.
  rewrite cleanup_lookup_Some, map_lookup_filter_Some. done.
Qed.

Lemma cleanup_idempotent now cache :
  _cleanup_expired_cache now (_cleanup_expired_cache now cache)
  = _cleanup_expired_cache now cache.
Proof.
  apply map_eq. intros k. apply option_eq. intros e.
  rewrite !cleanup_lookup_Some. split; [by intros [? _] | by intros [? ?]].
Qed.

End Sweep.

(** ** Quality: clamp and default *)

Lemma clamp_quality_range (q : Z) : 1 <= clamp_quality q <= 100.
Proof. unfold clamp_quality, MIN_QUALITY, MAX_QUALITY. lia. Qed.

Lemma clamp_quality_fixed (q : Z) : 1 <= q <= 100 -> clamp_quality q = q.
Proof. unfold clamp_quality, MIN_QUALITY, MAX_QUALITY. lia. Qed.

Lemma clamp_quality_idempotent (q : Z) :
  clamp_quality (clamp_quality q) = clamp_quality q.
Proof. apply clamp_quality_fixed, clamp_quality_range. Qed.

Lemma in_quality_range (q : Z) : 1 <= q <= 100 -> In q quality_range.
Proof.
  intros Hq. unfold quality_range.
  replace q with (Z.of_nat (Z.to_nat q)) by lia.
  apply in_map, in_seq. lia.
Qed.

(** C6: for every integer [q], [max(1, min(100, q))] lies in [1,100] and
    clamping twice is clamping once; a missing quality field, and one that
    [int] rejects, give the default 40, which the clamp leaves at 40. *)
Theorem quality_clamp_and_default (int_of_str : string -> option Z) :
  (forall q : Z,
      clamp_quality q = Z.max 1 (Z.min 100 q)
      /\ 1 <= clamp_quality q <= 100
      /\ clamp_quality (clamp_quality q) = clamp_quality q)
  /\ requested_quality int_of_str None = 40
  /\ (forall s : string,
        int_of_str s = None -> requested_quality int_of_str (Some s) = 40)
  /\ clamp_quality 40 = 40.
Proof.
  split; [|split; [|split]].
  - intros q. split; [reflexivity |].
    split; [apply clamp_quality_range | apply clamp_quality_idempotent].
  - reflexivity.
  - intros s Hs. unfold requested_quality. rewrite Hs. reflexivity.
  - reflexivity.
Qed.

Lemma quality_clamp_and_default_witness :
  Sample.int_of_str "high" = None
  /\ requested_quality Sample.int_of_str (Some "high") = 40
  /\ clamp_quality 250 = 100.
Proof.
  destruct (quality_clamp_and_default Sample.int_of_str) as (Hclamp & _ & Hbad & _).
  split; [reflexivity |].
  split; [apply Hbad; reflexivity |].
  destruct (Hclamp 250) as (-> & _). reflexivity.
Defined.

(** ** The PNG compression level *)

Lemma round_half_even_div_bounds (n d : Z) :
  n / d <= round_half_even_div n d <= n / d + 1.
Proof.
  unfold round_half_even_div.
  destruct (2 * (n mod d) ?= d); [destruct (Z.even (n / d)) | |]; lia.
Qed.

Lemma round_half_even_div_mono (n n' d : Z) :
  0 < d -> n <= n' -> round_half_even_div n d <= round_half_even_div n' d.
Proof.
  intros Hd Hn.
  destruct (Z.eq_dec (n / d) (n' / d)) as [Heq|Hne].
  - assert (Hr : n mod d <= n' mod d).
    { pose proof (Z.div_mod n d ltac:(lia)). pose proof (Z.div_mod n' d ltac:(lia)).
      rewrite Heq in *. lia. }
    unfold round_half_even_div. rewrite <- Heq.
    destruct (Z.compare_spec (2 * (n mod d)) d), (Z.compare_spec (2 * (n' mod d)) d),
      (Z.even (n / d)); lia.
  - assert (n / d <= n' / d) by (apply Z.div_le_mono; lia).
    pose proof (round_half_even_div_bounds n d).
    pose proof (round_half_even_div_bounds n' d). lia.
Qed.

Lemma spec_png_level_range (q : Z) : 0 <= spec_png_level q <= 9.
Proof. unfold spec_png_level. lia. Qed.

Lemma spec_png_level_antitone (q q' : Z) :
  q <= q' -> spec_png_level q' <= spec_png_level q.
Proof.
  intros Hq. unfold spec_png_level.
  pose proof (round_half_even_div_mono (9 * (100 - q')) (9 * (100 - q)) 100).
  lia.
Qed.

(** The float computation agrees with the exact one on every clamped
    quality: all hundred values are evaluated. *)
Lemma png_compress_level_table :
  forallb (fun q => match png_compress_level q with
                    | Ok level => level =? spec_png_level q
                    | Raise _ => false
                    end) quality_range = true.
Proof. vm_compute. reflexivity. Qed.

Lemma png_compress_level_exact (q : Z) :
  1 <= q <= 100 -> png_compress_level q = Ok (spec_png_level q).
Proof.
  intros Hq. pose proof png_compress_level_table as Htab.
  rewrite forallb_forall in Htab. specialize (Htab q (in_quality_range q Hq)).
  destruct (png_compress_level q) as [level|e]; [|discriminate].
  apply Z.eqb_eq in Htab. by subst.
Qed.

(** The one tie: at quality 50 the quotient is exactly 4.5 and [round]
    goes to the even neighbour. *)
Example png_compress_level_50 :
  (let* step := int_truediv 100 9 in int_float_truediv 50 step) = int_truediv 45 10
  /\ png_compress_level 50 = Ok 4.
Proof. split; vm_compute; reflexivity. Qed.

(** C5: for clamped qualities [q1 <= q2] and PNG output, the level handed
    to the encoder is [round((100 - q) / (100/9))] clamped to [0,9], it
    lies in [0,9], and the higher quality gets the lower or equal level. *)
Theorem png_level_in_range_and_antitone (q1 q2 : Z) :
  1 <= q1 -> q1 <= q2 -> q2 <= 100 ->
  exists level1 level2 : Z,
    png_compress_level q1 = Ok level1
    /\ png_compress_level q2 = Ok level2
    /\ build_save_kwargs "PNG" q1 = Ok (mk_kwargs "PNG" None (Some true) (Some level1))
    /\ level1 = spec_png_level q1
    /\ level2 = spec_png_level q2
    /\ 0 <= level1 <= 9
    /\ 0 <= level2 <= 9
    /\ level2 <= level1.
Proof.
  intros H1 H12 H2.
  exists (spec_png_level q1), (spec_png_level q2).
  assert (Hl1 : png_compress_level q1 = Ok (spec_png_level q1))
    by (apply png_compress_level_exact; lia).
  assert (Hl2 : png_compress_level q2 = Ok (spec_png_level q2))
    by (apply png_compress_level_exact; lia).
  repeat split; try done; try apply spec_png_level_range.
  - unfold build_save_kwargs. simpl. rewrite Hl1. reflexivity.
  - by apply spec_png_level_antitone.
Qed.

Lemma png_level_in_range_and_antitone_witness :
  exists level1 level2 : Z,
    png_compress_level 40 = Ok level1
    /\ png_compress_level 90 = Ok level2
    /\ build_save_kwargs "PNG" 40 = Ok (mk_kwargs "PNG" None (Some true) (Some level1))
    /\ level1 = spec_png_level 40
    /\ level2 = spec_png_level 90
    /\ 0 <= level1 <= 9
    /\ 0 <= level2 <= 9
    /\ level2 <= level1.
Proof. apply (png_level_in_range_and_antitone 40 90); lia. Defined.

(** ** Formats and keyword arguments *)

Lemma str_in_true (x : string) (xs : list string) : str_in x xs = true <-> x ∈ xs.
Proof. unfold str_in. apply bool_decide_eq_true. Qed.

Lemma str_in_false (x : string) (xs : list string) : str_in x xs = false <-> x ∉ xs.
Proof. unfold str_in. apply bool_decide_eq_false. Qed.

Lemma allowed_format_cases (fmt : string) :
  fmt ∈ ALLOWED_OUTPUT_FORMATS -> fmt = "JPEG" \/ fmt = "PNG" \/ fmt = "WEBP".
Proof.
  unfold ALLOWED_OUTPUT_FORMATS. rewrite !elem_of_cons, elem_of_nil. tauto.
Qed.


(** ** The upload route, case by case *)

Section Compress.

Variable int_of_str : string -> option Z.
Variable pil : Pillow.

Implicit Types (req : Request) (cache : Cache) (file : FileStorage).

(** What a rendered result says about the run that produced it. *)
Lemma compress_image_rendered req now_sweep random now_store cache cache' r :
  compress_image int_of_str pil req now_sweep random now_store cache
    = (cache', RenderIndex (Some r)) ->
  exists file img save_kwargs compressed_bytes compressed_size_kb pct,
    let out_format := requested_format (form_format req) in
    let q := clamp_quality (requested_quality int_of_str (form_quality req)) in
    let orig_size_kb := measure_orig_size_kb (fs_stream file) in
    accepted req file
    /\ validate_image pil (fs_stream file) = Ok tt
    /\ Image_open pil (fs_stream file) = Ok img
    /\ build_save_kwargs out_format q = Ok save_kwargs
    /\ (exists flat, flatten_for_output pil img out_format = Ok flat
                     /\ Image_save pil flat save_kwargs = Ok compressed_bytes)
    /\ int_float_truediv (Z.of_nat (length compressed_bytes)) f1024
       = Ok compressed_size_kb
    /\ compression_percent orig_size_kb compressed_size_kb = Ok pct
    /\ cache' = <[_generate_download_id random :=
                   mk_entry compressed_bytes (output_mimetype out_format)
                     (output_filename out_format)
                     (now_store + timedelta_seconds DOWNLOAD_CACHE_TTL_SECONDS)]>
                (_cleanup_expired_cache now_sweep cache)
    /\ r = {| original_kb := round_ndigits orig_size_kb 2;
              compressed_kb := round_ndigits compressed_size_kb 2;
              percent := round_ndigits pct 2;
              format := out_format;
              quality := q;
              download_id := _generate_download_id random;
              filename := output_filename out_format |}.
Proof.
  unfold compress_image. intros Hrun.
  destruct (files_file req) as [file|] eqn:Hfile; [|discriminate].
  destruct (String.eqb (fs_filename file) "") eqn:Hname; [discriminate|].
  destruct (str_in (requested_format (form_format req)) ALLOWED_OUTPUT_FORMATS)
    eqn:Hfmt; simpl in Hrun; [|discriminate].
  destruct (validate_image pil (fs_stream file)) as [[]|] eqn:Hval; [|discriminate].
  destruct (stream_rewind (fs_stream file)) as [[]|] eqn:Hrew; [|discriminate].
  destruct (Image_open pil (fs_stream file)) as [img|] eqn:Hopen; [|discriminate].
  destruct (flatten_for_output pil img _) as [flat|] eqn:Hflat; [|discriminate].
  destruct (build_save_kwargs _ _) as [kw|] eqn:Hkw; [|discriminate].
  destruct (Image_save pil flat kw) as [bytes|] eqn:Hsave; [|discriminate].
  unfold publish in Hrun.
  destruct (int_float_truediv _ f1024) as [ckb|] eqn:Hckb; simpl in Hrun; [|discriminate].
  destruct (compression_percent _ ckb) as [pct|] eqn:Hpct; simpl in Hrun; [|discriminate].
  injection Hrun as <- <-.
  exists file, img, kw, bytes, ckb, pct. simpl.
  split; [split; [done | split; [by apply String.eqb_neq | by apply str_in_true]] |].
  split; [done |]. split; [done |]. split; [done |].
  split; [by exists flat |].
  repeat split; done.
Qed.

(** Every failure of [upload_failure] is answered by its message, with
    the cache left as the sweep left it. *)
Lemma compress_image_failure req msg now_sweep random now_store cache :
  upload_failure int_of_str pil req msg ->
  compress_image int_of_str pil req now_sweep random now_store cache
  = (_cleanup_expired_cache now_sweep cache, RedirectIndex msg).
Proof.
  unfold compress_image.
  intros [Hfile
         | file Hfile Hname
         | file Hfile Hname Hfmt
         | file e (Hfile & Hname & Hfmt) Hval
         | file e (Hfile & Hname & Hfmt) Hval Hrew Hopen
         | file img flat kw e (Hfile & Hname & Hfmt) Hval Hrew Hopen Hflat Hkw Hsave];
    rewrite Hfile; try done.
  - by rewrite Hname.
  - apply String.eqb_neq in Hname. apply str_in_false in Hfmt.
    by rewrite Hname, Hfmt.
  - apply String.eqb_neq in Hname. apply str_in_true in Hfmt.
    by rewrite Hname, Hfmt, Hval.
  - apply String.eqb_neq in Hname. apply str_in_true in Hfmt.
    by rewrite Hname, Hfmt, Hval, Hrew, Hopen.
  - apply String.eqb_neq in Hname. apply str_in_true in Hfmt.
    rewrite Hname, Hfmt, Hval, Hrew, Hopen. simpl.
    by rewrite Hflat, Hkw, Hsave.
Qed.

(** Conversely, the redirects of [compress_image] are exactly the failures
    of [upload_failure]. *)
Lemma compress_image_redirect req msg now_sweep random now_store cache cache' :
  compress_image int_of_str pil req now_sweep random now_store cache
    = (cache', RedirectIndex msg) ->
  upload_failure int_of_str pil req msg.
Proof.
  unfold compress_image. intros Hrun.
  destruct (files_file req) as [file|] eqn:Hfile.
  2: { injection Hrun as _ <-. by apply missing_file_part. }
  destruct (String.eqb (fs_filename file) "") eqn:Hname.
  { injection Hrun as _ <-. apply (empty_filename _ _ _ file); [done |].
    by apply String.eqb_eq. }
  apply String.eqb_neq in Hname.
  destruct (str_in (requested_format (form_format req)) ALLOWED_OUTPUT_FORMATS)
    eqn:Hfmt; simpl in Hrun.
  2: { injection Hrun as _ <-. apply (unsupported_format _ _ _ file); try done.
       by apply str_in_false. }
  apply str_in_true in Hfmt.
  assert (Hacc : accepted req file) by done.
  destruct (validate_image pil (fs_stream file)) as [[]|e] eqn:Hval.
  2: { injection Hrun as _ <-. by apply (undecodable_image _ _ _ file). }
  destruct (stream_rewind (fs_stream file)) as [[]|e] eqn:Hrew; [|discriminate].
  destruct (Image_open pil (fs_stream file)) as [img|e] eqn:Hopen.
  2: { injection Hrun as _ <-. by apply (unreadable_after_verify _ _ _ file). }
  destruct (flatten_for_output pil img _) as [flat|e] eqn:Hflat; [|discriminate].
  destruct (build_save_kwargs _ _) as [kw|e] eqn:Hkw; [|discriminate].
  destruct (Image_save pil flat kw) as [bytes|e] eqn:Hsave.
  2: { injection Hrun as _ <-. by apply (encoder_failure _ _ _ file img flat kw). }
  unfold publish in Hrun.
  destruct (int_float_truediv _ f1024) as [ckb|]; simpl in Hrun; [|discriminate].
  destruct (compression_percent _ ckb) as [pct|]; simpl in Hrun; discriminate.
Qed.

(** Whatever the answer, an upload either leaves the swept cache as it
    is or adds the one entry of its rendered result. *)
Lemma compress_image_cache req now_sweep random now_store cache :
  let out := compress_image int_of_str pil req now_sweep random now_store cache in
  (exists r, out.2 = RenderIndex (Some r))
  \/ out.1 = _cleanup_expired_cache now_sweep cache.
Proof.
  unfold compress_image.
  destruct (files_file req) as [file|]; [|by right].
  destruct (String.eqb (fs_filename file) ""); [by right|].
  destruct (negb _); [by right|].
  destruct (validate_image pil (fs_stream file)) as [[]|]; [|by right].
  destruct (stream_rewind (fs_stream file)) as [[]|]; [|by right].
  destruct (Image_open pil (fs_stream file)) as [img|]; [|by right].
  destruct (flatten_for_output pil img _) as [flat|]; [|by right].
  destruct (build_save_kwargs _ _) as [kw|]; [|by right].
  destruct (Image_save pil flat kw) as [bytes|]; [|by right].
  unfold publish.
  destruct (int_float_truediv _ f1024) as [ckb|]; simpl; [|by right].
  destruct (compression_percent _ ckb) as [pct|]; simpl; [|by right].
  left. eauto.
Qed.

End Compress.

(** ** The download route and sequences of requests *)

Section Download.

Variable int_of_str : string -> option Z.
Variable pil : Pillow.

Implicit Types (cache : Cache) (id k : string) (e : DownloadEntry).

Lemma download_image_absent id now_sweep now_check cache :
  _cleanup_expired_cache now_sweep cache !! id = None ->
  download_image id now_sweep now_check cache
  = (_cleanup_expired_cache now_sweep cache, unavailable).
Proof. unfold download_image. by intros ->. Qed.

Lemma download_image_served id now_sweep now_check cache e :
  cache !! id = Some e ->
  now_sweep < entry_expiry e -> now_check < entry_expiry e ->
  download_image id now_sweep now_check cache
  = (delete id (_cleanup_expired_cache now_sweep cache),
     SendFile (entry_bytes e) (entry_mimetype e) (entry_filename e)).
Proof.
  intros Hid Hsweep Hcheck. unfold download_image.
  rewrite (proj2 (cleanup_lookup_Some now_sweep cache id e)) by done.
  destruct (Z.leb_spec (entry_expiry e) now_check); [lia | done].
Qed.

(** An entry that outlives the sweep and fails the check at pop time. *)
Lemma download_image_expired_at_check id now_sweep now_check cache e :
  cache !! id = Some e ->
  now_sweep < entry_expiry e -> entry_expiry e <= now_check ->
  download_image id now_sweep now_check cache
  = (delete id (_cleanup_expired_cache now_sweep cache),
     RedirectIndex "Download has expired.").
Proof.
  intros Hid Hsweep Hcheck. unfold download_image.
  rewrite (proj2 (cleanup_lookup_Some now_sweep cache id e)) by done.
  destruct (Z.leb_spec (entry_expiry e) now_check); [done | lia].
Qed.

Lemma download_image_expired_at_sweep id now_sweep now_check cache e :
  cache !! id = Some e ->
  entry_expiry e <= now_sweep ->
  download_image id now_sweep now_check cache
  = (_cleanup_expired_cache now_sweep cache, unavailable).
Proof.
  intros Hid Hsweep. apply download_image_absent.
  rewrite cleanup_lookup, Hid. by rewrite decide_True.
Qed.

(** After a download the id is gone, whatever the answer was. *)
Lemma download_image_removes id now_sweep now_check cache :
  (download_image id now_sweep now_check cache).1 !! id = None.
Proof.
  unfold download_image.
  destruct (_cleanup_expired_cache now_sweep cache !! id) as [e|] eqn:Hid;
    [|done].
  destruct (entry_expiry e <=? now_check); apply lookup_delete_eq.
Qed.

(** The cache after a download is part of the cache before. *)
Lemma download_image_lookup_Some id now_sweep now_check cache k e :
  (download_image id now_sweep now_check cache).1 !! k = Some e ->
  cache !! k = Some e.
Proof.
  unfold download_image.
  destruct (_cleanup_expired_cache now_sweep cache !! id) as [e'|] eqn:Hid.
  - destruct (entry_expiry e' <=? now_check); simpl;
      intros [_ Hk]%lookup_delete_Some;
      by apply cleanup_lookup_Some in Hk as [? _].
  - simpl. by intros [? _]%cleanup_lookup_Some.
Qed.

(** A request adds at most the entry of a rendered upload. *)
Lemma handle_lookup_Some (ev : Event) cache k e :
  (handle int_of_str pil ev cache).1 !! k = Some e ->
  cache !! k = Some e
  \/ exists req now_sweep random now_store r,
       ev = PostCompress req now_sweep random now_store
       /\ compress_image int_of_str pil req now_sweep random now_store cache
          = ((handle int_of_str pil ev cache).1, RenderIndex (Some r))
       /\ k = _generate_download_id random.
Proof.
  destruct ev as [now | req now_sweep random now_store | id now_sweep now_check];
    simpl.
  - intros [? _]%cleanup_lookup_Some. by left.
  - destruct (compress_image_cache int_of_str pil req now_sweep random now_store cache)
      as [[r Hr] | Hsame].
    + destruct (compress_image _ _ _ _ _ _ _) as [cache' resp] eqn:Hrun.
      simpl in *. subst resp. intros Hk.
      destruct (decide (k = _generate_download_id random)) as [->|Hne].
      * right. by exists req, now_sweep, random, now_store, r.
      * left.
        destruct (compress_image_rendered _ _ _ _ _ _ _ _ _ Hrun)
          as (? & ? & ? & ? & ? & ? & Hall).
        simpl in Hall. destruct Hall as (_ & _ & _ & _ & _ & _ & _ & -> & _).
        rewrite lookup_insert_ne in Hk by done.
        by apply cleanup_lookup_Some in Hk as [? _].
    + rewrite Hsame. intros [? _]%cleanup_lookup_Some. by left.
  - intros Hk. left. by eapply download_image_lookup_Some.
Qed.

Lemma handle_keeps_absent (ev : Event) cache id :
  ~ may_insert id ev -> cache !! id = None ->
  (handle int_of_str pil ev cache).1 !! id = None.
Proof.
  intros Hev Hid.
  destruct ((handle int_of_str pil ev cache).1 !! id) as [e|] eqn:Hk; [|done].
  apply handle_lookup_Some in Hk as [Hk | (? & ? & ? & ? & ? & -> & _ & ->)].
  - congruence.
  - by destruct Hev.
Qed.

Lemma run_keeps_absent (evs : list Event) cache id :
  Forall (fun ev => ~ may_insert id ev) evs -> cache !! id = None ->
  run int_of_str pil evs cache !! id = None.
Proof.
  intros Hevs. revert cache.
  induction Hevs as [|ev evs Hev _ IH]; intros cache Hid; simpl; [done|].
  by apply IH, handle_keeps_absent.
Qed.

End Download.

(** ** One-time download and expiry *)

(** C1: two downloads of the same id, with any requests in between that do
    not insert that id: the first serves the stored entry when it is
    present and unexpired at both clock readings, and leaves the id absent;
    the second, and any later one, finds nothing. *)
Theorem download_consumes_entry
    (int_of_str : string -> option Z) (pil : Pillow)
    (id : string) (cache : Cache) (between : list Event)
    (now_sweep now_check now_sweep' now_check' : Z) :
  Forall (fun ev => ~ may_insert id ev) between ->
  let first := download_image id now_sweep now_check cache in
  let later := run int_of_str pil between first.1 in
  (forall e, cache !! id = Some e ->
             now_sweep < entry_expiry e -> now_check < entry_expiry e ->
             first.2 = SendFile (entry_bytes e) (entry_mimetype e) (entry_filename e))
  /\ first.1 !! id = None
  /\ later !! id = None
  /\ (download_image id now_sweep' now_check' later).2 = unavailable.
Proof.
  intros Hbetween first later.
  assert (Hgone : first.1 !! id = None) by apply download_image_removes.
  assert (Hlater : later !! id = None) by by apply run_keeps_absent.
  repeat split; try done.
  - intros e Hid Hsweep Hcheck. subst first.
    by rewrite (download_image_served id now_sweep now_check cache e).
  - rewrite download_image_absent; [done |].
    by apply cleanup_lookup_None.
Qed.

(** C2: an entry stored at [t0] with a time to live of [T] seconds and
    asked for at a clock reading after [t0 + T] is not served and is
    removed; the sweep drops exactly the entries with [expiry <= now]; the
    check at pop time refuses on the same bound when the sweep kept the
    entry. *)
Theorem expired_entry_not_served
    (id : string) (cache : Cache) (e : DownloadEntry)
    (t0 T now_sweep now_check : Z) :
  cache !! id = Some e ->
  entry_expiry e = t0 + timedelta_seconds T ->
  t0 + timedelta_seconds T < now_sweep \/ t0 + timedelta_seconds T < now_check ->
  not_available (download_image id now_sweep now_check cache).2
  /\ (download_image id now_sweep now_check cache).1 !! id = None
  /\ (forall now k e',
        _cleanup_expired_cache now cache !! k = Some e'
        <-> cache !! k = Some e' /\ ~ entry_expiry e' <= now)
  /\ (now_sweep < entry_expiry e -> entry_expiry e <= now_check ->
      download_image id now_sweep now_check cache
      = (delete id (_cleanup_expired_cache now_sweep cache),
         RedirectIndex "Download has expired.")).
Proof.
  intros Hid Hexp Hlate. split; [|split; [|split]].
  - destruct (Z.le_gt_cases (entry_expiry e) now_sweep) as [Hs|Hs].
    + rewrite (download_image_expired_at_sweep id now_sweep now_check cache e) by done.
      by eexists.
    + rewrite (download_image_expired_at_check id now_sweep now_check cache e)
        by (try done; lia).
      by eexists.
  - apply download_image_removes.
  - intros now k e'. rewrite cleanup_lookup_Some. split; intros [? ?]; split; try done; lia.
  - intros Hs Hc. by apply (download_image_expired_at_check id now_sweep now_check cache e).
Qed.

Lemma expired_entry_not_served_witness :
  let e := mk_entry [Byte.x01] "image/png" "compressed.png" (7 + timedelta_seconds 300) in
  let cache : Cache := {[ "0123456789ab4def8123456789abcdef" := e ]} in
  not_available (download_image "0123456789ab4def8123456789abcdef" 5 300000008 cache).2
  /\ (download_image "0123456789ab4def8123456789abcdef" 5 300000008 cache).1
       !! "0123456789ab4def8123456789abcdef" = None.
Proof.
  intros e cache.
  destruct (expired_entry_not_served "0123456789ab4def8123456789abcdef" cache e
              7 300 5 300000008) as (H1 & H2 & _).
  - reflexivity.
  - reflexivity.
  - right. vm_compute. reflexivity.
  - split; [exact H1 | exact H2].
Defined.

Lemma download_consumes_entry_witness :
  let id := "0123456789ab4def8123456789abcdef" in
  let e := mk_entry [Byte.x01] "image/png" "compressed.png" 300000007 in
  let cache : Cache := {[ id := e ]} in
  let between :=
    [GetIndex 20;
     PostCompress (Sample.upload "cat.png" Sample.rgb_file (Some "png") (Some "80")) 21 8 22] in
  let first := download_image id 10 11 cache in
  first.2 = SendFile [Byte.x01] "image/png" "compressed.png"
  /\ (download_image id 30 31
        (run Sample.int_of_str Sample.codec between first.1)).2 = unavailable.
Proof.
  intros id e cache between first.
  destruct (download_consumes_entry Sample.int_of_str Sample.codec
              id cache between 10 11 30 31) as (Hfirst & _ & _ & Hsecond).
  - repeat constructor.
    + intros [].
    + vm_compute. discriminate.
  - split; [| exact Hsecond].
    apply (Hfirst e); [reflexivity | simpl; lia | simpl; lia].
Defined.

(** ** Absent and expired ids *)

(** C9, as stated, fails: an id that is absent and an id whose entry
    outlives the sweep (clock reading 5) but is expired at the check at pop
    time (clock reading 10) get different messages. *)
Lemma expired_at_check_answer_differs :
  let id := "0123456789ab4def8123456789abcdef" in
  let e := mk_entry [Byte.x01] "image/png" "compressed.png" 10 in
  let absent : Cache := ∅ in
  let present : Cache := {[ id := e ]} in
  absent !! id = None
  /\ present !! id = Some e
  /\ entry_expiry e <= 10
  /\ (download_image id 5 10 absent).2 = unavailable
  /\ (download_image id 5 10 present).2 = RedirectIndex "Download has expired."
  /\ (download_image id 5 10 absent).2 <> (download_image id 5 10 present).2.
Proof.
  intros id e absent present.
  assert (Ha : (download_image id 5 10 absent).2 = unavailable) by reflexivity.
  assert (Hp : (download_image id 5 10 present).2 = RedirectIndex "Download has expired.")
    by reflexivity.
  split; [apply lookup_empty |].
  split; [apply lookup_singleton_eq |].
  split; [simpl; lia |].
  split; [exact Ha |].
  split; [exact Hp |].
  rewrite Ha, Hp. discriminate.
Qed.

(** C9, amended: an absent id and an id whose entry is expired when the
    sweep of the request runs get the same answer, the redirect with the
    message of [unavailable]; an entry that the sweep keeps and the check
    at pop time finds expired gets the redirect with the message
    "Download has expired."; neither is served. *)
Theorem absent_and_swept_ids_alike
    (id id' : string) (cache cache' : Cache) (e : DownloadEntry)
    (now_sweep now_check now_sweep' now_check' : Z) :
  cache !! id = None ->
  cache' !! id' = Some e ->
  (entry_expiry e <= now_sweep' ->
     (download_image id now_sweep now_check cache).2
     = (download_image id' now_sweep' now_check' cache').2
     /\ (download_image id' now_sweep' now_check' cache').2 = unavailable)
  /\ (now_sweep' < entry_expiry e -> entry_expiry e <= now_check' ->
     (download_image id' now_sweep' now_check' cache').2
     = RedirectIndex "Download has expired."
     /\ (download_image id now_sweep now_check cache).2 = unavailable
     /\ not_available (download_image id' now_sweep' now_check' cache').2).
Proof.
  intros Habsent Hpresent.
  assert (Ha : (download_image id now_sweep now_check cache).2 = unavailable).
  { rewrite download_image_absent; [done | by apply cleanup_lookup_None]. }
  split.
  - intros Hswept.
    rewrite (download_image_expired_at_sweep id' now_sweep' now_check' cache' e) by done.
    by rewrite Ha.
  - intros Hkept Hcheck.
    rewrite (download_image_expired_at_check id' now_sweep' now_check' cache' e) by done.
    repeat split; [done |]. by eexists.
Qed.

Lemma absent_and_swept_ids_alike_witness :
  let id := "0123456789ab4def8123456789abcdef" in
  let e := mk_entry [Byte.x01] "image/png" "compressed.png" 10 in
  (download_image id 5 6 ∅).2 = (download_image id 10 11 {[ id := e ]}).2
  /\ (download_image id 5 10 {[ id := e ]}).2 = RedirectIndex "Download has expired.".
Proof.
  intros id e.
  destruct (absent_and_swept_ids_alike id id ∅ {[ id := e ]} e 5 6 10 11)
    as [Hswept _]; [apply lookup_empty | apply lookup_singleton_eq |].
  destruct (absent_and_swept_ids_alike id id ∅ {[ id := e ]} e 5 6 5 10)
    as [_ Hcheck]; [apply lookup_empty | apply lookup_singleton_eq |].
  split.
  - apply Hswept. simpl. lia.
  - apply Hcheck; simpl; lia.
Defined.

(** ** Download ids *)

Lemma hex_fixed_length (width : nat) (n : Z) (acc : string) :
  String.length (hex_fixed width n acc) = (width + String.length acc)%nat.
Proof.
  revert n acc. induction width as [|w IH]; intros n acc; simpl; [done |].
  rewrite IH. simpl. lia.
Qed.

(** An id is a string of 32 characters. *)
Lemma generate_download_id_length (random : Z) :
  String.length (_generate_download_id random) = 32%nat.
Proof. unfold _generate_download_id. by rewrite hex_fixed_length. Qed.

(** ** The insert of a successful upload *)

(** C3, as stated, fails: there is no check of the generated id against
    the keys of the cache.  Two uploads for which [uuid4] draws the same
    128 bits: the second one succeeds, replaces the live entry of the first
    and leaves the size of the cache at one. *)
Lemma colliding_id_overwrites :
  let upload1 := Sample.upload "cat.png" Sample.rgb_file (Some "png") (Some "80") in
  let upload2 := Sample.upload "dog.png" Sample.rgba_file (Some "webp") (Some "80") in
  let compress := compress_image Sample.int_of_str Sample.codec in
  let cache1 := (compress upload1 10 7 11 ∅).1 in
  let out2 := compress upload2 20 7 21 cache1 in
  let id := _generate_download_id 7 in
  let old := mk_entry [Byte.x01; Byte.x02; Byte.x03] "image/png" "compressed.png" 300000011 in
  _cleanup_expired_cache 20 cache1 !! id = Some old
  /\ (exists r, out2.2 = RenderIndex (Some r) /\ download_id r = id)
  /\ size out2.1 = size (_cleanup_expired_cache 20 cache1)
  /\ out2.1 !! id <> Some old.
Proof.
  intros upload1 upload2 compress cache1 out2 id old.
  split; [vm_compute; reflexivity |].
  split.
  { set (resp := out2.2). vm_compute in resp. subst resp.
    eexists. split; [reflexivity |]. vm_compute. reflexivity. }
  split; [vm_compute; reflexivity |].
  vm_compute. discriminate.
Qed.

(** C3, amended: a successful upload stores its entry under the id that
    [_generate_download_id] returns, without looking that id up first; the
    expiry is the clock reading of the insert plus the configured time to
    live; entries under other ids stay as the sweep left them; the cache
    grows by exactly one entry when the id is not already a key, and keeps
    its size, with the old entry replaced, when it is. *)
Theorem insert_on_success
    (int_of_str : string -> option Z) (pil : Pillow) (req : Request)
    (now_sweep random now_store : Z) (cache cache' : Cache) (r : CompressResult) :
  compress_image int_of_str pil req now_sweep random now_store cache
    = (cache', RenderIndex (Some r)) ->
  let swept := _cleanup_expired_cache now_sweep cache in
  download_id r = _generate_download_id random
  /\ exists e : DownloadEntry,
       cache' = <[download_id r := e]> swept
       /\ cache' !! download_id r = Some e
       /\ entry_expiry e = now_store + timedelta_seconds DOWNLOAD_CACHE_TTL_SECONDS
       /\ (forall k, k <> download_id r -> cache' !! k = swept !! k)
       /\ (swept !! download_id r = None -> size cache' = S (size swept))
       /\ (is_Some (swept !! download_id r) -> size cache' = size swept).
Proof.
  intros Hrun swept.
  destruct (compress_image_rendered _ _ _ _ _ _ _ _ _ Hrun)
    as (file & img & kw & bytes & ckb & pct & Hall).
  simpl in Hall. destruct Hall as (_ & _ & _ & _ & _ & _ & _ & -> & ->). simpl.
  split; [done |]. eexists. split; [done |].
  split; [apply lookup_insert_eq |].
  split; [done |].
  split; [intros k Hk; by apply lookup_insert_ne |].
  split.
  - intros Hfresh. by apply map_size_insert_None.
  - intros [old Hold]. by eapply map_size_insert_Some.
Qed.

Lemma insert_on_success_witness :
  let out := compress_image Sample.int_of_str Sample.codec
               (Sample.upload "cat.png" Sample.rgb_file (Some "png") (Some "80"))
               10 7 11 ∅ in
  exists r e,
    out.2 = RenderIndex (Some r)
    /\ out.1 !! download_id r = Some e
    /\ entry_expiry e = 300000011
    /\ size out.1 = 1%nat.
Proof.
  intros out.
  destruct (compress_image Sample.int_of_str Sample.codec
              (Sample.upload "cat.png" Sample.rgb_file (Some "png") (Some "80"))
              10 7 11 ∅) as [cache' resp] eqn:Hrun.
  assert (Hresp : exists r, resp = RenderIndex (Some r)).
  { apply (f_equal snd) in Hrun. vm_compute in Hrun. subst resp. by eexists. }
  destruct Hresp as [r ->].
  destruct (insert_on_success _ _ _ _ _ _ _ _ _ Hrun)
    as (_ & e & _ & Hlookup & Hexpiry & _ & Hsize & _).
  exists r, e. subst out. simpl.
  split; [done |]. split; [done |]. split; [done |].
  apply Hsize. vm_compute. reflexivity.
Defined.

(** ** Failed uploads *)

(** X17: an upload that fails in one of the ways the handler catches (no
    file part, empty file name, unsupported format, undecodable image,
    image that cannot be reopened, failure of the encoder on the image
    that the conversion returned) is answered by the redirect with its
    error message; no result and so no download id is produced, and the
    cache is what the sweep alone would have left: nothing is added. *)
Theorem failed_upload_leaves_cache
    (int_of_str : string -> option Z) (pil : Pillow) (req : Request) (msg : string)
    (now_sweep random now_store : Z) (cache : Cache) :
  upload_failure int_of_str pil req msg ->
  let out := compress_image int_of_str pil req now_sweep random now_store cache in
  out.2 = RedirectIndex msg
  /\ (forall r, out.2 <> RenderIndex (Some r))
  /\ out.1 = _cleanup_expired_cache now_sweep cache
  /\ out.1 = (index now_sweep cache).1
  /\ (forall k e, out.1 !! k = Some e -> cache !! k = Some e).
Proof.
  intros Hfail out. subst out.
  rewrite (compress_image_failure int_of_str pil req msg) by done. simpl.
  repeat split; try done.
  intros k e [? _]%cleanup_lookup_Some. done.
Qed.

Lemma failed_upload_leaves_cache_witness :
  let kept := mk_entry [Byte.x01] "image/png" "compressed.png" 300000007 in
  let cache : Cache := {[ "0123456789ab4def8123456789abcdef" := kept ]} in
  let out := compress_image Sample.int_of_str Sample.codec
               (Sample.upload "note.txt" Sample.text_file (Some "png") None)
               10 7 11 cache in
  out.2 = RedirectIndex "Uploaded file is not a valid image."
  /\ out.1 = _cleanup_expired_cache 10 cache.
Proof.
  intros kept cache out.
  destruct (failed_upload_leaves_cache Sample.int_of_str Sample.codec
              (Sample.upload "note.txt" Sample.text_file (Some "png") None)
              "Uploaded file is not a valid image." 10 7 11 cache)
    as (Hresp & _ & Hcache & _).
  - apply (undecodable_image _ _ _
             (mk_file "note.txt" (mk_stream Sample.text_file true))
             Sample.cannot_identify).
    + split; [reflexivity |]. split; [discriminate |].
      vm_compute. apply list_elem_of_further, list_elem_of_here.
    + reflexivity.
  - split; [exact Hresp | exact Hcache].
Defined.

(** C8: one failure of the transcoding ends without a message.  The call
    [img.convert("RGB")] stands outside every [try]: when the upload is
    accepted and verified, the reopened image has mode RGBA or P, the
    format is not PNG and [convert] raises, the exception leaves
    [compress_image].  The answer is not the redirect with a flashed
    message, and it is none of the failures that [upload_failure] lists;
    no result is rendered, and the cache is what the sweep left. *)
Theorem convert_failure_is_uncaught
    (int_of_str : string -> option Z) (pil : Pillow) (req : Request)
    (file : FileStorage) (img : image pil) (e : pyexn)
    (now_sweep random now_store : Z) (cache : Cache) :
  accepted req file ->
  validate_image pil (fs_stream file) = Ok tt ->
  stream_rewind (fs_stream file) = Ok tt ->
  Image_open pil (fs_stream file) = Ok img ->
  Image_mode pil img = "RGBA" \/ Image_mode pil img = "P" ->
  requested_format (form_format req) <> "PNG" ->
  Image_convert pil img "RGB" = Raise e ->
  let out := compress_image int_of_str pil req now_sweep random now_store cache in
  out.2 = Unhandled e
  /\ (forall msg, out.2 <> RedirectIndex msg)
  /\ (forall msg, ~ upload_failure int_of_str pil req msg)
  /\ (forall r, out.2 <> RenderIndex (Some r))
  /\ out.1 = _cleanup_expired_cache now_sweep cache.
Proof.
  intros (Hfile & Hname & Hfmt) Hval Hrew Hopen Hmode Hpng Hconv out.
  assert (Hout : out = (_cleanup_expired_cache now_sweep cache, Unhandled e)).
  { subst out. unfold compress_image.
    apply String.eqb_neq in Hname. apply str_in_true in Hfmt.
    rewrite Hfile, Hname, Hfmt, Hval, Hrew, Hopen. simpl.
    unfold flatten_for_output, needs_rgb_conversion.
    apply String.eqb_neq in Hpng. rewrite Hpng.
    destruct Hmode as [-> | ->]; by rewrite Hconv. }
  split; [by rewrite Hout |]. split; [by rewrite Hout |].
  split; [| split; [by rewrite Hout | by rewrite Hout]].
  intros msg Hfail.
  pose proof (compress_image_failure int_of_str pil req msg
                now_sweep random now_store cache Hfail) as Hred.
  fold out in Hred. rewrite Hout in Hred. discriminate Hred.
Qed.

Lemma convert_failure_is_uncaught_witness :
  let req := Sample.upload "anim.gif" Sample.truncated_palette_file (Some "jpeg") None in
  validate_image Sample.codec (mk_stream Sample.truncated_palette_file true) = Ok tt
  /\ compress_image Sample.int_of_str Sample.codec req 10 7 11 ∅
     = (∅, Unhandled Sample.truncated).
Proof.
  intros req. split; [reflexivity |].
  destruct (convert_failure_is_uncaught Sample.int_of_str Sample.codec req
              (mk_file "anim.gif" (mk_stream Sample.truncated_palette_file true))
              ("P", []) Sample.truncated 10 7 11 ∅)
    as (Hresp & _ & _ & _ & Hcache).
  - split; [reflexivity |]. split; [discriminate |].
    vm_compute. apply list_elem_of_here.
  - reflexivity.
  - reflexivity.
  - reflexivity.
  - by right.
  - intros Hpng. vm_compute in Hpng. discriminate Hpng.
  - reflexivity.
  - destruct (compress_image Sample.int_of_str Sample.codec req 10 7 11 ∅)
      as [cache' resp].
    simpl in Hresp, Hcache. subst cache' resp. reflexivity.
Defined.

(** ** Names of the stored entries *)

Lemma well_named_output (fmt : string) (bytes : list Byte.byte) (expiry : Z) :
  fmt ∈ ALLOWED_OUTPUT_FORMATS ->
  well_named (mk_entry bytes (output_mimetype fmt) (output_filename fmt) expiry).
Proof.
  intros Hfmt. unfold well_named.
  destruct (allowed_format_cases fmt Hfmt) as [-> | [-> | ->]]; simpl;
    [left | right; left | right; right]; split; reflexivity.
Qed.

Lemma handle_well_named (int_of_str : string -> option Z) (pil : Pillow)
    (ev : Event) (cache : Cache) :
  map_Forall (fun _ e => well_named e) cache ->
  map_Forall (fun _ e => well_named e) (handle int_of_str pil ev cache).1.
Proof.
  intros Hinv k e Hk.
  destruct (handle_lookup_Some int_of_str pil ev cache k e Hk)
    as [Hold | (req & now_sweep & random & now_store & r & -> & Hrun & ->)].
  - by apply (Hinv k).
  - destruct (compress_image_rendered _ _ _ _ _ _ _ _ _ Hrun)
      as (file & img & kw & bytes & ckb & pct & Hall).
    simpl in Hall. destruct Hall as ((_ & _ & Hfmt) & _ & _ & _ & _ & _ & _ & Hcache & _).
    simpl in Hcache, Hk. rewrite Hcache, lookup_insert_eq in Hk.
    injection Hk as <-. by apply well_named_output.
Qed.

Lemma run_well_named (int_of_str : string -> option Z) (pil : Pillow)
    (evs : list Event) (cache : Cache) :
  map_Forall (fun _ e => well_named e) cache ->
  map_Forall (fun _ e => well_named e) (run int_of_str pil evs cache).
Proof.
  revert cache. induction evs as [|ev evs IH]; intros cache Hinv; simpl; [done |].
  by apply IH, handle_well_named.
Qed.

(** The name of the uploaded file is only tested for emptiness. *)
Lemma compress_image_ignores_filename (int_of_str : string -> option Z) (pil : Pillow)
    (name name' : string) (stream : Stream) (fmt quality : option string)
    (now_sweep random now_store : Z) (cache : Cache) :
  name <> "" -> name' <> "" ->
  compress_image int_of_str pil (mk_request (Some (mk_file name stream)) fmt quality)
    now_sweep random now_store cache
  = compress_image int_of_str pil (mk_request (Some (mk_file name' stream)) fmt quality)
      now_sweep random now_store cache.
Proof.
  intros Hname Hname'. apply String.eqb_neq in Hname, Hname'.
  unfold compress_image. simpl. by rewrite Hname, Hname'.
Qed.

(** C10: every entry of a cache reached from the empty one by any sequence
    of requests has the file name "compressed." followed by jpg, png or
    webp and the matching mime type image/jpeg, image/png or image/webp;
    the entry stored by a successful upload carries the pair that belongs
    to the output format of its result, whatever the uploaded file was
    called. *)
Theorem stored_entries_well_named (int_of_str : string -> option Z) (pil : Pillow) :
  (forall (evs : list Event) (k : string) (e : DownloadEntry),
      run int_of_str pil evs ∅ !! k = Some e -> well_named e)
  /\ (forall req now_sweep random now_store cache cache' r,
        compress_image int_of_str pil req now_sweep random now_store cache
          = (cache', RenderIndex (Some r)) ->
        exists e : DownloadEntry,
          cache' !! download_id r = Some e
          /\ entry_filename e = filename r
          /\ entry_filename e = "compressed." +:+ _safe_output_extension (format r)
          /\ ((format r = "JPEG" /\ entry_filename e = "compressed.jpg"
               /\ entry_mimetype e = "image/jpeg")
              \/ (format r = "PNG" /\ entry_filename e = "compressed.png"
                  /\ entry_mimetype e = "image/png")
              \/ (format r = "WEBP" /\ entry_filename e = "compressed.webp"
                  /\ entry_mimetype e = "image/webp")))
  /\ (forall name name' stream fmt quality now_sweep random now_store cache,
        name <> "" -> name' <> "" ->
        compress_image int_of_str pil
          (mk_request (Some (mk_file name stream)) fmt quality)
          now_sweep random now_store cache
        = compress_image int_of_str pil
            (mk_request (Some (mk_file name' stream)) fmt quality)
            now_sweep random now_store cache).
Proof.
  split; [| split].
  3: { intros. by apply compress_image_ignores_filename. }
  - intros evs k e Hk.
    apply (run_well_named int_of_str pil evs ∅ (map_Forall_empty _) k e Hk).
  - intros req now_sweep random now_store cache cache' r Hrun.
    destruct (compress_image_rendered _ _ _ _ _ _ _ _ _ Hrun)
      as (file & img & kw & bytes & ckb & pct & Hall).
    simpl in Hall. destruct Hall as ((_ & _ & Hfmt) & _ & _ & _ & _ & _ & _ & -> & ->).
    simpl. eexists. split; [apply lookup_insert_eq |]. simpl.
    split; [done |]. split; [done |].
    destruct (allowed_format_cases _ Hfmt) as [-> | [-> | ->]];
      [left | right; left | right; right]; repeat split; reflexivity.
Qed.

Lemma stored_entries_well_named_witness :
  let evs :=
    [PostCompress (Sample.upload "holiday photo.bmp" Sample.rgba_file (Some "webp") None)
       10 7 11] in
  exists e,
    run Sample.int_of_str Sample.codec evs ∅ !! _generate_download_id 7 = Some e
    /\ well_named e.
Proof.
  intros evs.
  destruct (stored_entries_well_named Sample.int_of_str Sample.codec) as [Hinv _].
  exists (mk_entry [Byte.x01; Byte.x02; Byte.x03; Byte.xff]
            "image/webp" "compressed.webp" 300000011).
  assert (Hk : run Sample.int_of_str Sample.codec evs ∅ !! _generate_download_id 7
               = Some (mk_entry [Byte.x01; Byte.x02; Byte.x03; Byte.xff]
                         "image/webp" "compressed.webp" 300000011))
    by (vm_compute; reflexivity).
  split; [exact Hk | exact (Hinv _ _ _ Hk)].
Defined.

(** ** Compression statistics *)

Lemma positive_not_zero (x : float) : flt fzero x = true -> is_zero x = false.
Proof. by destruct x. Qed.

Lemma compression_percent_positive (o c : float) :
  flt fzero o = true ->
  compression_percent o c = Ok (fdiv (fmul f100 (fsub o c)) o).
Proof.
  intros Hpos. unfold compression_percent, truediv.
  by rewrite Hpos, (positive_not_zero o Hpos).
Qed.

Lemma compression_percent_zero (o c : float) :
  is_zero o = true -> compression_percent o c = Ok fzero.
Proof. by destruct o. Qed.

Lemma compression_percent_total (o c : float) :
  exists p, compression_percent o c = Ok p.
Proof.
  destruct (flt fzero o) eqn:Hpos.
  - rewrite compression_percent_positive by done. by eexists.
  - unfold compression_percent. rewrite Hpos. by eexists.
Qed.

(** The rounded quotient is within half a unit of the exact one. *)
Lemma round_half_even_div_nearest (n d : Z) :
  0 < d -> 2 * Z.abs (n - d * round_half_even_div n d) <= d.
Proof.
  intros Hd. unfold round_half_even_div.
  pose proof (Z.div_mod n d ltac:(lia)) as Hdiv.
  pose proof (Z.mod_pos_bound n d Hd) as Hmod.
  destruct (Z.compare_spec (2 * (n mod d)) d); [destruct (Z.even (n / d)) | |]; lia.
Qed.

(** What [round(x, 2)] is for a finite [x] of magnitude [m * 2^e]: the
    double nearest to [d / 100], where the integer [d] is within one half
    of [100 * m * 2^e]. *)
Lemma round_ndigits_hundredths (s : bool) (m : positive) (e : Z) :
  exists d : Z,
    0 <= d
    /\ round_ndigits (S754_finite s m e) 2
       = match d with
         | Zpos p => SFdiv prec emax (S754_finite s p 0) (S754_finite false 100 0)
         | _ => S754_zero s
         end
    /\ (0 <= e -> d = 100 * Zpos m * 2 ^ e)
    /\ (e < 0 -> 2 * Z.abs (100 * Zpos m - d * 2 ^ (- e)) <= 2 ^ (- e)).
Proof.
  unfold round_ndigits.
  change (10 ^ Z.of_N 2) with 100. change (Z.to_pos 100) with 100%positive.
  destruct (Z.leb_spec 0 e) as [He|He].
  - exists (Z.pos m * 100 * 2 ^ e).
    split; [assert (0 <= 2 ^ e) by (apply Z.pow_nonneg; lia); lia |].
    split; [done |]. split; [lia | lia].
  - assert (Hpow : 0 < 2 ^ (- e)) by (apply Z.pow_pos_nonneg; lia).
    exists (round_half_even_div (Z.pos m * 100) (2 ^ (- e))).
    split.
    { pose proof (round_half_even_div_bounds (Z.pos m * 100) (2 ^ (- e))).
      assert (0 <= Z.pos m * 100 / 2 ^ (- e)) by (apply Z.div_pos; lia). lia. }
    split; [done |]. split; [lia |]. intros _.
    pose proof (round_half_even_div_nearest (Z.pos m * 100) (2 ^ (- e)) Hpow). lia.
Qed.

(** At a tie the rounded quotient is the even neighbour. *)
Lemma round_half_even_div_tie (n d : Z) :
  0 < d -> 2 * Z.abs (n - d * round_half_even_div n d) = d ->
  Z.even (round_half_even_div n d) = true.
Proof.
  intros Hd. unfold round_half_even_div.
  pose proof (Z.div_mod n d ltac:(lia)) as Hdiv.
  pose proof (Z.mod_pos_bound n d Hd) as Hmod.
  destruct (Z.compare_spec (2 * (n mod d)) d) as [Heq|Hlt|Hgt]; [| lia | lia].
  destruct (Z.even (n / d)) eqn:Heven; [done |]. intros _.
  by rewrite Z.add_1_r, Z.even_succ, <- Z.negb_even, Heven.
Qed.

(** [round(x, 2)] is [x] rounded to two decimal places. *)
Lemma round_ndigits_rounded (x : float) :
  rounded_to_hundredths x (round_ndigits x 2).
Proof.
  destruct x as [s | s | | s m e]; try reflexivity.
  unfold rounded_to_hundredths, round_ndigits.
  change (10 ^ Z.of_N 2) with 100. change (Z.to_pos 100) with 100%positive.
  destruct (Z.leb_spec 0 e) as [He|He].
  - exists (Z.pos m * 100 * 2 ^ e).
    split; [assert (0 <= 2 ^ e) by (apply Z.pow_nonneg; lia); lia |].
    split; [lia |]. split; [lia |]. split; [lia | done].
  - assert (Hpow : 0 < 2 ^ (- e)) by (apply Z.pow_pos_nonneg; lia).
    exists (round_half_even_div (Z.pos m * 100) (2 ^ (- e))).
    split.
    { pose proof (round_half_even_div_bounds (Z.pos m * 100) (2 ^ (- e))).
      assert (0 <= Z.pos m * 100 / 2 ^ (- e)) by (apply Z.div_pos; lia). lia. }
    split; [lia |].
    pose proof (round_half_even_div_nearest (Z.pos m * 100) (2 ^ (- e)) Hpow) as Hnear.
    split; [intros _; lia |].
    split; [| done]. intros _ Htie.
    apply round_half_even_div_tie; [done | lia].
Qed.

(** Two decimal places leave no choice: the rounded value is unique. *)
Lemma rounded_to_hundredths_unique (x y y' : float) :
  rounded_to_hundredths x y -> rounded_to_hundredths x y' -> y = y'.
Proof.
  destruct x as [s | s | | s m e]; simpl; try congruence.
  intros (d & Hd & Hbig & Hnear & Htie & ->) (d' & Hd' & Hbig' & Hnear' & Htie' & ->).
  assert (Heq : d = d'); [| by rewrite Heq].
  destruct (Z.leb_spec 0 e) as [He|He]; [rewrite Hbig, Hbig' by done; done |].
  assert (Hpow : 0 < 2 ^ (- e)) by (apply Z.pow_pos_nonneg; lia).
  specialize (Hnear He). specialize (Hnear' He).
  specialize (Htie He). specialize (Htie' He).
  destruct (Z.lt_trichotomy d d') as [Hlt | [-> | Hgt]]; [| done |].
  - assert (d' = d + 1) by nia. subst d'.
    assert (Hd1 : Z.even d = true) by (apply Htie; nia).
    assert (Hd2 : Z.even (d + 1) = true) by (apply Htie'; nia).
    rewrite Z.add_1_r, Z.even_succ, <- Z.negb_even, Hd1 in Hd2. discriminate.
  - assert (d = d' + 1) by nia. subst d.
    assert (Hd1 : Z.even d' = true) by (apply Htie'; nia).
    assert (Hd2 : Z.even (d' + 1) = true) by (apply Htie; nia).
    rewrite Z.add_1_r, Z.even_succ, <- Z.negb_even, Hd1 in Hd2. discriminate.
Qed.

(** [round(2.675, 2)] is [2.67] and [round(0.125, 2)] is [0.12]: the
    double nearest to 2.675 lies below it, and the tie goes to the even
    digit. *)
Example round_ndigits_2_675 :
  (let* x := int_truediv 2675 1000 in Ok (round_ndigits x 2)) = int_truediv 267 100.
Proof. vm_compute. reflexivity. Qed.

Example round_ndigits_0_125 :
  (let* x := int_truediv 125 1000 in Ok (round_ndigits x 2)) = int_truediv 12 100.
Proof. vm_compute. reflexivity. Qed.

(** C7: the percentage never raises: it is [100.0 * (orig - comp) / orig]
    in float arithmetic when the original size is positive, and exactly
    [0.0] when it is zero; in the result of a successful upload the
    original size, the compressed size and the percentage are each
    [round(_, 2)] of the measured values, and each is the one float that
    is its measured value rounded to two decimal places: the double
    nearest to [d / 100] for the integer [d] nearest to a hundred times
    the measured value, the even one at a tie. *)
Theorem compression_statistics (int_of_str : string -> option Z) (pil : Pillow) :
  (forall orig_size_kb compressed_size_kb : float,
      exists pct,
        compression_percent orig_size_kb compressed_size_kb = Ok pct
        /\ (flt fzero orig_size_kb = true ->
            pct = fdiv (fmul f100 (fsub orig_size_kb compressed_size_kb)) orig_size_kb)
        /\ (is_zero orig_size_kb = true -> pct = fzero))
  /\ (forall req now_sweep random now_store cache cache' r,
        compress_image int_of_str pil req now_sweep random now_store cache
          = (cache', RenderIndex (Some r)) ->
        exists file e orig_size_kb compressed_size_kb pct,
          files_file req = Some file
          /\ orig_size_kb = measure_orig_size_kb (fs_stream file)
          /\ cache' !! download_id r = Some e
          /\ int_float_truediv (Z.of_nat (length (entry_bytes e))) f1024
             = Ok compressed_size_kb
          /\ compression_percent orig_size_kb compressed_size_kb = Ok pct
          /\ original_kb r = round_ndigits orig_size_kb 2
          /\ compressed_kb r = round_ndigits compressed_size_kb 2
          /\ percent r = round_ndigits pct 2
          /\ (forall y, rounded_to_hundredths orig_size_kb y <-> y = original_kb r)
          /\ (forall y, rounded_to_hundredths compressed_size_kb y
                        <-> y = compressed_kb r)
          /\ (forall y, rounded_to_hundredths pct y <-> y = percent r)).
Proof.
  assert (Hround : forall x y, rounded_to_hundredths x y <-> y = round_ndigits x 2).
  { intros x y. split.
    - intros Hy. apply (rounded_to_hundredths_unique x); [done |].
      apply round_ndigits_rounded.
    - intros ->. apply round_ndigits_rounded. }
  split.
  - intros o c. destruct (compression_percent_total o c) as [pct Hpct].
    exists pct. split; [done |]. split.
    + intros Hpos. rewrite compression_percent_positive in Hpct by done.
      by injection Hpct.
    + intros Hzero. rewrite compression_percent_zero in Hpct by done.
      by injection Hpct.
  - intros req now_sweep random now_store cache cache' r Hrun.
    destruct (compress_image_rendered _ _ _ _ _ _ _ _ _ Hrun)
      as (file & img & kw & bytes & ckb & pct & Hall).
    simpl in Hall.
    destruct Hall as ((Hfile & _) & _ & _ & _ & _ & Hckb & Hpct & -> & ->).
    eexists file, _, _, ckb, pct. simpl.
    split; [done |]. split; [reflexivity |].
    split; [apply lookup_insert_eq |]. simpl.
    split; [done |]. split; [done |]. split; [done |]. split; [done |].
    split; [done |]. split; [apply Hround |]. split; apply Hround.
Qed.

Lemma compression_statistics_witness :
  let out := compress_image Sample.int_of_str Sample.codec
               (Sample.upload "cat.png" Sample.eighth_kb_file (Some "png") (Some "80"))
               10 7 11 ∅ in
  compression_percent f1024 f100 = Ok (fdiv (fmul f100 (fsub f1024 f100)) f1024)
  /\ compression_percent fzero f1024 = Ok fzero
  /\ exists r,
       out.2 = RenderIndex (Some r)
       /\ Ok (original_kb r) = int_truediv 12 100
       /\ Ok (compressed_kb r) = int_truediv 12 100
       /\ Ok (percent r) = int_truediv 78 100.
Proof.
  intros out.
  destruct (compression_statistics Sample.int_of_str Sample.codec) as [Hpct Hres].
  split; [| split].
  - destruct (Hpct f1024 f100) as (p & -> & Hpos & _).
    by rewrite Hpos.
  - destruct (Hpct fzero f1024) as (p & -> & _ & Hzero).
    by rewrite Hzero.
  - subst out.
    destruct (compress_image Sample.int_of_str Sample.codec
                (Sample.upload "cat.png" Sample.eighth_kb_file (Some "png") (Some "80"))
                10 7 11 ∅) as [cache' resp] eqn:Hrun.
    assert (Hresp : exists r, resp = RenderIndex (Some r)).
    { apply (f_equal snd) in Hrun. vm_compute in Hrun. subst resp. by eexists. }
    destruct Hresp as [r ->].
    destruct (Hres _ _ _ _ _ _ _ Hrun)
      as (file & e & okb & ckb & pct & Hfile & Hokb & Hlook & Hckb & Hp
          & _ & _ & _ & Ho & Hc & Hq).
    exists r. split; [reflexivity |].
    injection Hfile as <-. vm_compute in Hokb. subst okb.
    assert (Hbytes : entry_bytes e = repeat Byte.x01 127).
    { assert (Hlook' : Some e
                       = (compress_image Sample.int_of_str Sample.codec
                            (Sample.upload "cat.png" Sample.eighth_kb_file
                               (Some "png") (Some "80"))
                            10 7 11 ∅).1 !! download_id r)
        by (rewrite Hrun; symmetry; exact Hlook).
      apply (f_equal snd) in Hrun. vm_compute in Hrun. injection Hrun as <-.
      vm_compute in Hlook'. by injection Hlook' as ->. }
    rewrite Hbytes in Hckb. vm_compute in Hckb. injection Hckb as <-.
    vm_compute in Hp. injection Hp as <-.
    split; [| split].
    + destruct (int_truediv 12 100) as [y|] eqn:Hy; vm_compute in Hy; [| discriminate].
      injection Hy as <-. f_equal. symmetry. apply Ho.
      exists 12. split; [lia |]. split; [intros He; vm_compute in He; by destruct He |].
      split; [intros _; vm_compute; discriminate |].
      split; [intros _ _; reflexivity | vm_compute; reflexivity].
    + destruct (int_truediv 12 100) as [y|] eqn:Hy; vm_compute in Hy; [| discriminate].
      injection Hy as <-. f_equal. symmetry. apply Hc.
      exists 12. split; [lia |]. split; [intros He; vm_compute in He; by destruct He |].
      split; [intros _; vm_compute; discriminate |].
      split; [intros _ _; reflexivity | vm_compute; reflexivity].
    + destruct (int_truediv 78 100) as [y|] eqn:Hy; vm_compute in Hy; [| discriminate].
      injection Hy as <-. f_equal. symmetry. apply Hq.
      exists 78. split; [lia |]. split; [intros He; vm_compute in He; by destruct He |].
      split; [intros _; vm_compute; discriminate |].
      split; [intros _ _; reflexivity | vm_compute; reflexivity].
Defined.

(** ** Transparency *)

Lemma flatten_rgba_or_palette (pil : Pillow) (img : image pil) (fmt : string) :
  Image_mode pil img = "RGBA" \/ Image_mode pil img = "P" ->
  fmt <> "PNG" ->
  flatten_for_output pil img fmt = Image_convert pil img "RGB".
Proof.
  intros Hmode Hfmt. unfold flatten_for_output, needs_rgb_conversion.
  apply String.eqb_neq in Hfmt. rewrite Hfmt.
  by destruct Hmode as [-> | ->].
Qed.

Lemma flatten_png_keeps_image (pil : Pillow) (img : image pil) :
  flatten_for_output pil img "PNG" = Ok img.
Proof.
  unfold flatten_for_output, needs_rgb_conversion. simpl.
  by rewrite andb_false_r.
Qed.

Lemma flatten_other_modes_keeps_image (pil : Pillow) (img : image pil) (fmt : string) :
  Image_mode pil img <> "RGBA" -> Image_mode pil img <> "P" ->
  flatten_for_output pil img fmt = Ok img.
Proof.
  intros Hrgba Hp. unfold flatten_for_output, needs_rgb_conversion.
  assert (Hin : str_in (Image_mode pil img) ["RGBA"; "P"] = false).
  { apply str_in_false. rewrite !elem_of_cons, elem_of_nil. tauto. }
  by rewrite Hin.
Qed.

(** C4, at the failing input: a grey image with an alpha band (mode LA)
    is not one of the two modes the guard of the conversion names, so for
    WEBP and JPEG output it reaches the encoder with its alpha band; with
    the sample codec the JPEG writer then refuses it. *)
Theorem grey_alpha_not_flattened :
  mode_has_alpha "LA" = true
  /\ needs_rgb_conversion "LA" "WEBP" = false
  /\ needs_rgb_conversion "LA" "JPEG" = false
  /\ flatten_for_output Sample.codec ("LA", [Byte.x01; Byte.xff]) "WEBP"
     = Ok ("LA", [Byte.x01; Byte.xff])
  /\ needs_rgb_conversion "RGBA" "WEBP" = true
  /\ (compress_image Sample.int_of_str Sample.codec
        (Sample.upload "grey.png" Sample.la_file (Some "JPEG") None) 10 7 11 ∅).2
     = RedirectIndex "Error saving compressed image: cannot write mode LA as JPEG".
Proof. repeat split; vm_compute; reflexivity. Qed.

(** * Further properties of the code *)

(** ** Sweeps compose *)

(** X1: two sweeps in a row, in either order, leave what one sweep at the
    later of the two clock readings leaves; in particular a sweep repeated
    at the same reading changes nothing more. *)
Theorem sweep_twice_is_sweep_at_max (now1 now2 : Z) (cache : Cache) :
  _cleanup_expired_cache now2 (_cleanup_expired_cache now1 cache)
  = _cleanup_expired_cache (Z.max now1 now2) cache
  /\ _cleanup_expired_cache now1 (_cleanup_expired_cache now2 cache)
     = _cleanup_expired_cache now2 (_cleanup_expired_cache now1 cache).
Proof.
  assert (Hmax : forall a b,
             _cleanup_expired_cache b (_cleanup_expired_cache a cache)
             = _cleanup_expired_cache (Z.max a b) cache).
  { intros a b. apply map_eq. intros k. apply option_eq. intros e.
    rewrite !cleanup_lookup_Some. split.
    - intros [[? ?] ?]. split; [done | lia].
    - intros [? ?]. repeat split; [done | lia | lia]. }
  split; [apply Hmax |].
  rewrite !Hmax. f_equal. lia.
Qed.

(** X2: a sweep only drops entries: what it leaves is a part of the cache,
    no larger than it; it leaves the cache as it is exactly when no entry
    has [expiry <= now]; and a later sweep leaves a part of what an earlier
    one leaves. *)
Theorem sweep_only_drops (now now' : Z) (cache : Cache) :
  _cleanup_expired_cache now cache ⊆ cache
  /\ (size (_cleanup_expired_cache now cache) <= size cache)%nat
  /\ (_cleanup_expired_cache now cache = cache
      <-> forall k e, cache !! k = Some e -> now < entry_expiry e)
  /\ (now <= now' ->
      _cleanup_expired_cache now' cache ⊆ _cleanup_expired_cache now cache).
Proof.
  assert (Hsub : _cleanup_expired_cache now cache ⊆ cache).
  { apply map_subseteq_spec. by intros k e [? _]%cleanup_lookup_Some. }
  split; [done |]. split; [by apply map_subseteq_size |]. split.
  - split.
    + intros Heq k e Hk. rewrite <- Heq in Hk.
      by apply cleanup_lookup_Some in Hk as [_ ?].
    + intros Hlive. apply map_eq. intros k. apply option_eq. intros e.
      rewrite cleanup_lookup_Some. split; [by intros [? _] |].
      intros Hk. split; [done | by apply (Hlive k)].
  - intros Hle. apply map_subseteq_spec. intros k e.
    rewrite !cleanup_lookup_Some. intros [? ?]. split; [done | lia].
Qed.

Lemma sweep_only_drops_witness :
  let live := mk_entry [Byte.x01] "image/png" "compressed.png" 50 in
  let stale := mk_entry [Byte.x02] "image/webp" "compressed.webp" 20 in
  let cache : Cache := {[ "a" := live; "b" := stale ]} in
  _cleanup_expired_cache 10 cache = cache
  /\ _cleanup_expired_cache 30 cache ⊆ _cleanup_expired_cache 10 cache.
Proof.
  intros live stale cache.
  destruct (sweep_only_drops 10 30 cache) as (_ & _ & Hsame & Hlater).
  split.
  - apply Hsame. intros k e Hk.
    apply lookup_insert_Some in Hk as [[_ <-] | [_ Hk]]; [simpl; lia |].
    apply lookup_singleton_Some in Hk as [_ <-]. simpl. lia.
  - apply Hlater. lia.
Defined.

(** ** What a download does to the cache and when it serves *)

(** X3: whatever it answers, a download leaves the swept cache without
    the requested id: entries under other ids are touched by the sweep
    only. *)
Theorem download_is_sweep_then_delete
    (id : string) (now_sweep now_check : Z) (cache : Cache) :
  (download_image id now_sweep now_check cache).1
  = delete id (_cleanup_expired_cache now_sweep cache).
Proof.
  unfold download_image.
  destruct (_cleanup_expired_cache now_sweep cache !! id) as [e|] eqn:Hid.
  - by destruct (entry_expiry e <=? now_check).
  - simpl. by rewrite delete_id.
Qed.

(** X4: the bytes are served exactly when the id is present and both clock
    readings of the request lie before its expiry, and then with the
    stored bytes, mime type and file name. *)
Theorem download_serves_iff_live
    (id : string) (now_sweep now_check : Z) (cache : Cache)
    (data : list Byte.byte) (mimetype name : string) :
  (download_image id now_sweep now_check cache).2 = SendFile data mimetype name
  <-> exists e, cache !! id = Some e
                /\ now_sweep < entry_expiry e /\ now_check < entry_expiry e
                /\ data = entry_bytes e /\ mimetype = entry_mimetype e
                /\ name = entry_filename e.
Proof.
  split.
  - unfold download_image.
    destruct (_cleanup_expired_cache now_sweep cache !! id) as [e|] eqn:Hid;
      [|discriminate].
    apply cleanup_lookup_Some in Hid as [Hid Hsweep].
    destruct (Z.leb_spec (entry_expiry e) now_check); simpl; [discriminate |].
    intros [= <- <- <-]. by exists e.
  - intros (e & Hid & Hsweep & Hcheck & -> & -> & ->).
    by rewrite (download_image_served id now_sweep now_check cache e).
Qed.

Lemma download_serves_iff_live_witness :
  let e := mk_entry [Byte.x01] "image/png" "compressed.png" 50 in
  (download_image "a" 10 11 {[ "a" := e ]}).2
  = SendFile [Byte.x01] "image/png" "compressed.png".
Proof.
  intros e.
  apply (download_serves_iff_live "a" 10 11 {[ "a" := e ]}).
  exists e. split; [apply lookup_singleton_eq |].
  repeat split; simpl; lia.
Defined.

(** ** Answers do not depend on other entries *)

(** X5: the answer to a download depends on the cache only through the
    entry under the requested id, and the answer to an upload does not
    depend on the cache at all. *)
Theorem answers_ignore_other_entries
    (int_of_str : string -> option Z) (pil : Pillow) :
  (forall id now_sweep now_check (cache cache' : Cache),
      cache !! id = cache' !! id ->
      (download_image id now_sweep now_check cache).2
      = (download_image id now_sweep now_check cache').2)
  /\ (forall req now_sweep random now_store (cache cache' : Cache),
        (compress_image int_of_str pil req now_sweep random now_store cache).2
        = (compress_image int_of_str pil req now_sweep random now_store cache').2).
Proof.
  split.
  - intros id now_sweep now_check cache cache' Hid. unfold download_image.
    rewrite !cleanup_lookup, Hid.
    destruct (cache' !! id) as [e|]; [|done].
    destruct (decide (entry_expiry e <= now_sweep)); [done |].
    by destruct (entry_expiry e <=? now_check).
  - intros req now_sweep random now_store cache cache'. unfold compress_image.
    destruct (files_file req) as [file|]; [|done].
    destruct (String.eqb (fs_filename file) ""); [done |].
    destruct (negb _); [done |].
    destruct (validate_image pil (fs_stream file)) as [[]|]; [|done].
    destruct (stream_rewind (fs_stream file)) as [[]|]; [|done].
    destruct (Image_open pil (fs_stream file)) as [img|]; [|done].
    destruct (flatten_for_output pil img _) as [flat|]; [|done].
    destruct (build_save_kwargs _ _) as [kw|]; [|done].
    destruct (Image_save pil flat kw) as [bytes|]; [|done].
    unfold publish.
    destruct (int_float_truediv _ f1024) as [ckb|]; simpl; [|done].
    by destruct (compression_percent _ ckb) as [pct|].
Qed.

Lemma answers_ignore_other_entries_witness :
  let e := mk_entry [Byte.x01] "image/png" "compressed.png" 50 in
  let other := mk_entry [Byte.x02] "image/webp" "compressed.webp" 60 in
  (download_image "a" 10 11 {[ "a" := e ]}).2
  = (download_image "a" 10 11 {[ "a" := e; "b" := other ]}).2.
Proof.
  intros e other.
  destruct (answers_ignore_other_entries Sample.int_of_str Sample.codec) as [Hdl _].
  apply Hdl. rewrite lookup_singleton_eq. symmetry. apply lookup_insert_eq.
Defined.

(** ** Sizes in KB are exact *)

Ltac to_binint :=
  change IntDef.Z.min with Z.min in *;
  change IntDef.Z.max with Z.max in *;
  change IntDef.Z.sub with Z.sub in *;
  change IntDef.Z.add with Z.add in *;
  change IntDef.Z.mul with Z.mul in *;
  change IntDef.Z.shiftl with Z.shiftl in *;
  change IntDef.Z.div_eucl with Z.div_eucl in *;
  change IntDef.Z.eqb with Z.eqb in *;
  change IntDef.Z.leb with Z.leb in *;
  change IntDef.Z.even with Z.even in *;
  change IntDef.Z.compare with Z.compare in *.

Lemma digits2_pos_bounds (p : positive) :
  2 ^ (Zpos (digits2_pos p) - 1) <= Zpos p < 2 ^ Zpos (digits2_pos p).
Proof.
  induction p as [p IH|p IH|]; simpl digits2_pos.
  - rewrite Pos2Z.inj_succ.
    replace (Z.succ (Z.pos (digits2_pos p)) - 1)
      with (Z.succ (Z.pos (digits2_pos p) - 1)) by lia.
    rewrite !Z.pow_succ_r by lia. lia.
  - rewrite Pos2Z.inj_succ.
    replace (Z.succ (Z.pos (digits2_pos p)) - 1)
      with (Z.succ (Z.pos (digits2_pos p) - 1)) by lia.
    rewrite !Z.pow_succ_r by lia. lia.
  - simpl. lia.
Qed.

Lemma iter_xO_spec (p k : positive) :
  Zpos (Pos.iter xO p k) = Zpos p * 2 ^ Zpos k
  /\ digits2_pos (Pos.iter xO p k) = (digits2_pos p + k)%positive.
Proof.
  induction k as [|k IH] using Pos.peano_ind.
  - simpl. split; lia.
  - rewrite Pos.iter_succ. destruct IH as [IHv IHd]. split.
    + rewrite Pos2Z.inj_xO, IHv, Pos2Z.inj_succ, Z.pow_succ_r by lia. lia.
    + simpl. rewrite IHd. lia.
Qed.

(** A mantissa of 53 bits with an exponent in range is left as it is. *)
Lemma binary_round_aux_canonical (s : bool) (m : positive) (e : Z) :
  Zpos (digits2_pos m) = 53 -> -1074 <= e <= 971 ->
  binary_round_aux 53 1024 s (Zpos m) e loc_Exact = S754_finite s m e.
Proof.
  intros Hd He. unfold binary_round_aux, shr_fexp, fexp, emin.
  simpl Zdigits2. rewrite Hd.
  replace (Z.max (53 + e - 53) (3 - 1024 - 53) - e) with 0 by lia.
  simpl. rewrite Hd.
  replace (Z.max (53 + e - 53) (3 - 1024 - 53) - e) with 0 by lia.
  simpl. destruct (Z.leb_spec e (1024 - 53)); [done | lia].
Qed.

(** [float(n)] is exact below [2^53]. *)
Lemma of_int_small (p : positive) :
  Zpos p < 2 ^ 53 ->
  exists m,
    of_int (Zpos p) = Ok (S754_finite false m (Zpos (digits2_pos p) - 53))
    /\ Zpos (digits2_pos m) = 53
    /\ Zpos (digits2_pos p) <= 53
    /\ Zpos m = Zpos p * 2 ^ (53 - Zpos (digits2_pos p)).
Proof.
  intros Hp. pose proof (digits2_pos_bounds p) as [Hlo _].
  assert (Hd : Zpos (digits2_pos p) <= 53).
  { destruct (Z.le_gt_cases (Zpos (digits2_pos p)) 53) as [|Hgt]; [done |].
    assert (2 ^ 53 <= 2 ^ (Zpos (digits2_pos p) - 1)) by (apply Z.pow_le_mono_r; lia).
    lia. }
  unfold of_int, binary_normalize, binary_round, fexp, emin, prec, emax.
  replace (Z.max (Z.pos (digits2_pos p) + 0 - 53) (3 - 1024 - 53))
    with (Zpos (digits2_pos p) - 53) by lia.
  unfold shl_align.
  destruct (Zpos (digits2_pos p) - 53 - 0) as [|k|k] eqn:Hk; [| lia |].
  - exists p. rewrite (binary_round_aux_canonical false p 0) by lia.
    replace (Zpos (digits2_pos p) - 53) with 0 by lia.
    split; [done |]. split; [lia |]. split; [lia |].
    replace (53 - Zpos (digits2_pos p)) with 0 by lia. lia.
  - destruct (iter_xO_spec p k) as [Hv Hdig].
    exists (Pos.iter xO p k).
    rewrite binary_round_aux_canonical; [| rewrite Hdig; lia | lia].
    split; [done |]. split; [rewrite Hdig; lia |]. split; [lia |].
    rewrite Hv. f_equal. f_equal. lia.
Qed.

Lemma SFdiv_core_1024 (m : positive) (e : Z) :
  Zpos (digits2_pos m) = 53 -> -1063 <= e <= 971 ->
  SFdiv_core_binary 53 1024 (Zpos m) e 4503599627370496 (-42)
  = (Zpos m~0, e - 11, loc_Exact).
Proof.
  intros Hd He. unfold SFdiv_core_binary. cbv zeta.
  change (Zdigits2 (Z.pos m)) with (Z.pos (digits2_pos m)). rewrite Hd.
  change (Zdigits2 4503599627370496) with 53.
  unfold fexp, emin. to_binint.
  replace (Z.min (Z.max (53 + e - (53 + -42) - 53) (3 - 1024 - 53)) (e - -42))
    with (e - 11) by lia.
  replace (e - -42 - (e - 11)) with 53 by lia.
  assert (Hdiv : Z.div_eucl (Z.shiftl (Z.pos m) 53) 4503599627370496 = (Zpos m~0, 0)).
  { rewrite Z.shiftl_mul_pow2 by lia.
    pose proof (Z.div_eucl_eq (Z.pos m * 2 ^ 53) 4503599627370496 ltac:(lia)) as Heq.
    pose proof (Z.mod_pos_bound (Z.pos m * 2 ^ 53) 4503599627370496 ltac:(lia)) as Hmod.
    unfold Z.modulo in Hmod.
    destruct (Z.div_eucl (Z.pos m * 2 ^ 53) 4503599627370496) as [q r].
    change (2 ^ 53) with (2 * 4503599627370496) in Heq.
    assert (q = 2 * Zpos m /\ r = 0) as [-> ->] by nia. done. }
  rewrite Hdiv. reflexivity.
Qed.

(** Dividing a normal float by [1024.0] lowers its exponent by ten. *)
Lemma fdiv_1024 (m : positive) (e : Z) :
  Zpos (digits2_pos m) = 53 -> -1063 <= e <= 971 ->
  fdiv (S754_finite false m e) f1024 = S754_finite false m (e - 10).
Proof.
  intros Hd He. unfold fdiv, f1024, SFdiv, prec, emax.
  rewrite SFdiv_core_1024 by done.
  unfold binary_round_aux, shr_fexp, fexp, emin.
  change (Zdigits2 (Z.pos m~0)) with (Z.pos (Pos.succ (digits2_pos m))).
  rewrite Pos2Z.inj_succ, Hd. to_binint.
  replace (Z.max (Z.succ 53 + (e - 11) - 53) (3 - 1024 - 53) - (e - 11)) with 1 by lia.
  cbn [shr shr_record_of_loc SpecFloat.iter_pos shr_1 shr_m loc_of_shr_record
         round_nearest_even xorb].
  cbn [orb]. cbn [round_nearest_even].
  change (Zdigits2 (Z.pos m)) with (Z.pos (digits2_pos m)). rewrite Hd.
  to_binint.
  replace (Z.max (53 + (e - 11 + 1) - 53) (3 - 1024 - 53) - (e - 11 + 1)) with 0 by lia.
  cbn [shr shr_record_of_loc shr_m].
  destruct (Z.leb_spec (e - 11 + 1) (1024 - 53)); [| lia].
  f_equal. lia.
Qed.

(** [n / 1024.0] for a byte count [n] below [2^53]: no exception, no
    rounding. *)
Lemma kb_of_zero : int_float_truediv 0 f1024 = Ok fzero.
Proof. reflexivity. Qed.

Lemma kb_of_positive (n : Z) :
  0 < n < 2 ^ 53 ->
  exists kb, int_float_truediv n f1024 = Ok kb
             /\ has_value kb n 1024 /\ flt fzero kb = true.
Proof.
  intros Hn. destruct n as [|p|p]; [lia | | lia].
  destruct (of_int_small p ltac:(lia)) as (m & Hof & Hdig & Hd & Hm).
  pose proof (digits2_pos_bounds p) as _.
  exists (S754_finite false m (Zpos (digits2_pos p) - 53 - 10)).
  unfold int_float_truediv. rewrite Hof. simpl res_bind.
  unfold truediv. change (is_zero f1024) with false. cbv iota.
  rewrite fdiv_1024 by lia.
  split; [done |]. split; [| done].
  exists m, (Zpos (digits2_pos p) - 53 - 10).
  split; [done |]. split; [lia |].
  rewrite Hm.
  replace (- (Zpos (digits2_pos p) - 53 - 10)) with (53 - Zpos (digits2_pos p) + 10) by lia.
  rewrite Z.pow_add_r by lia. change (2 ^ 10) with 1024. lia.
Qed.

Lemma kb_of_small (n : Z) :
  0 <= n < 2 ^ 53 -> exists kb, int_float_truediv n f1024 = Ok kb.
Proof.
  intros Hn. destruct (Z.eq_dec n 0) as [-> | Hne].
  - exists fzero. apply kb_of_zero.
  - destruct (kb_of_positive n ltac:(lia)) as (kb & Hkb & _). by exists kb.
Qed.

(** X6: the measured size of a seekable upload of [n] bytes, for
    [0 < n < 2^53], is exactly [n / 1024] as a float, without rounding, so
    the percentage is computed by the quotient; the measurement is [0.0]
    for an empty upload and for a stream that cannot seek. *)
Theorem upload_size_measured_exactly (stream : Stream) :
  let n := Z.of_nat (length (stream_bytes stream)) in
  (stream_seekable stream = false -> measure_orig_size_kb stream = fzero)
  /\ (n = 0 -> measure_orig_size_kb stream = fzero)
  /\ (stream_seekable stream = true -> 0 < n < 2 ^ 53 ->
      has_value (measure_orig_size_kb stream) n 1024
      /\ forall c,
           compression_percent (measure_orig_size_kb stream) c
           = Ok (fdiv (fmul f100 (fsub (measure_orig_size_kb stream) c))
                   (measure_orig_size_kb stream))).
Proof.
  intros n. unfold measure_orig_size_kb, stream_size, stream_rewind.
  split; [by intros -> |]. split.
  - intros Hn. destruct (stream_seekable stream); [| done].
    simpl. fold n. rewrite Hn. reflexivity.
  - intros -> Hn. simpl. fold n.
    destruct (kb_of_positive n Hn) as (kb & -> & Hval & Hpos).
    split; [done |]. intros c. by apply compression_percent_positive.
Qed.

Lemma upload_size_measured_exactly_witness :
  has_value (measure_orig_size_kb (mk_stream Sample.rgb_file true)) 4 1024
  /\ measure_orig_size_kb (mk_stream Sample.rgb_file false) = fzero.
Proof.
  destruct (upload_size_measured_exactly (mk_stream Sample.rgb_file true))
    as (_ & _ & Hexact).
  destruct (upload_size_measured_exactly (mk_stream Sample.rgb_file false))
    as (Hfail & _).
  split.
  - apply Hexact; [reflexivity | simpl; lia].
  - apply Hfail. reflexivity.
Defined.

(** ** Outcomes of an upload *)


(** X7: an upload that passes the checks, on a stream that can seek, whose
    image decodes, whose conversion to RGB (when it is due) returns and
    whose encoding succeeds with fewer than [2^53] bytes, is answered by
    the rendered result, and the encoded bytes are stored under the
    generated id with the format's mime type and file name and the expiry
    of the insert. *)
Theorem decodable_upload_is_stored
    (int_of_str : string -> option Z) (pil : Pillow)
    (req : Request) (file : FileStorage) (img flat : image pil)
    (save_kwargs : SaveKwargs) (bytes : list Byte.byte)
    (now_sweep random now_store : Z) (cache : Cache) :
  let out_format := requested_format (form_format req) in
  let q := clamp_quality (requested_quality int_of_str (form_quality req)) in
  accepted req file ->
  stream_seekable (fs_stream file) = true ->
  validate_image pil (fs_stream file) = Ok tt ->
  Image_open pil (fs_stream file) = Ok img ->
  flatten_for_output pil img out_format = Ok flat ->
  build_save_kwargs out_format q = Ok save_kwargs ->
  Image_save pil flat save_kwargs = Ok bytes ->
  Z.of_nat (length bytes) < 2 ^ 53 ->
  exists r,
    compress_image int_of_str pil req now_sweep random now_store cache
    = (<[_generate_download_id random :=
          mk_entry bytes (output_mimetype out_format) (output_filename out_format)
            (now_store + timedelta_seconds DOWNLOAD_CACHE_TTL_SECONDS)]>
       (_cleanup_expired_cache now_sweep cache),
       RenderIndex (Some r))
    /\ download_id r = _generate_download_id random
    /\ format r = out_format
    /\ quality r = q
    /\ filename r = output_filename out_format.
Proof.
  intros out_format q (Hfile & Hname & Hfmt) Hseek Hval Hopen Hflat Hkw Hsave Hlen.
  subst out_format q.
  apply String.eqb_neq in Hname. apply str_in_true in Hfmt.
  destruct (kb_of_small (Z.of_nat (length bytes)) ltac:(lia)) as [ckb Hckb].
  destruct (compression_percent_total (measure_orig_size_kb (fs_stream file)) ckb)
    as [pct Hpct].
  unfold compress_image, stream_rewind.
  rewrite Hfile, Hname, Hfmt, Hval, Hseek, Hopen.
  cbn [negb]. rewrite Hflat, Hkw, Hsave.
  unfold publish. rewrite Hckb. cbn [res_bind]. rewrite Hpct. cbn [res_bind].
  eexists. split; [reflexivity |]. by repeat split.
Qed.

Lemma decodable_upload_is_stored_witness :
  exists r,
    compress_image Sample.int_of_str Sample.codec
      (Sample.upload "cat.png" Sample.rgba_file (Some "jpeg") (Some "640")) 10 7 11 ∅
    = ({[ _generate_download_id 7 :=
            mk_entry [Byte.x01; Byte.x02; Byte.x03; Byte.xff]
              "image/jpeg" "compressed.jpg" 300000011 ]},
       RenderIndex (Some r))
    /\ quality r = 100.
Proof.
  destruct (decodable_upload_is_stored Sample.int_of_str Sample.codec
              (Sample.upload "cat.png" Sample.rgba_file (Some "jpeg") (Some "640"))
              (mk_file "cat.png" (mk_stream Sample.rgba_file true))
              ("RGBA", [Byte.x01; Byte.x02; Byte.x03; Byte.xff])
              ("RGB", [Byte.x01; Byte.x02; Byte.x03; Byte.xff])
              (mk_kwargs "JPEG" (Some 100) (Some true) None)
              [Byte.x01; Byte.x02; Byte.x03; Byte.xff]
              10 7 11 ∅) as (r & Hrun & _ & _ & Hq & _).
  - split; [reflexivity |]. split; [discriminate |].
    vm_compute. apply list_elem_of_here.
  - reflexivity.
  - reflexivity.
  - reflexivity.
  - reflexivity.
  - reflexivity.
  - reflexivity.
  - simpl. lia.
  - exists r. split; [| exact Hq].
    rewrite Hrun. f_equal.
Defined.



(** ** What the encoder is asked for *)

(** X9: on a rendered upload the stored bytes are what [img.save] returned
    for the decoded image, converted to RGB when its mode is RGBA or P and
    the format is not PNG, with [optimize=True] and: for JPEG and WEBP the
    clamped quality, between 1 and 100, and no compression level; for PNG
    a compression level between 0 and 9 and no quality. *)
Theorem encoder_arguments
    (int_of_str : string -> option Z) (pil : Pillow) (req : Request)
    (now_sweep random now_store : Z) (cache cache' : Cache) (r : CompressResult) :
  compress_image int_of_str pil req now_sweep random now_store cache
    = (cache', RenderIndex (Some r)) ->
  exists file img kw e,
    files_file req = Some file
    /\ Image_open pil (fs_stream file) = Ok img
    /\ cache' !! download_id r = Some e
    /\ (exists flat,
          (if needs_rgb_conversion (Image_mode pil img) (format r)
           then Image_convert pil img "RGB" else Ok img) = Ok flat
          /\ Image_save pil flat kw = Ok (entry_bytes e))
    /\ kw_format kw = format r
    /\ kw_optimize kw = Some true
    /\ 1 <= quality r <= 100
    /\ (((format r = "JPEG" \/ format r = "WEBP")
         /\ kw_quality kw = Some (quality r) /\ kw_compress_level kw = None)
        \/ (format r = "PNG" /\ kw_quality kw = None
            /\ exists level, kw_compress_level kw = Some level /\ 0 <= level <= 9)).
Proof.
  intros Hrun.
  destruct (compress_image_rendered _ _ _ _ _ _ _ _ _ Hrun)
    as (file & img & kw & bytes & ckb & pct & Hall).
  simpl in Hall.
  destruct Hall as ((Hfile & _ & Hfmt) & _ & Hopen & Hkw & Hsave & _ & _ & -> & ->).
  exists file, img, kw. eexists. cbn [download_id format quality].
  split; [done |]. split; [done |]. split; [apply lookup_insert_eq |].
  cbn [entry_bytes]. split; [exact Hsave |].
  clear Hsave.
  pose proof (clamp_quality_range (requested_quality int_of_str (form_quality req))) as Hq.
  destruct (allowed_format_cases _ Hfmt) as [Heq | [Heq | Heq]];
    rewrite Heq in Hkw |- *.
  - injection Hkw as <-.
    split; [reflexivity |]. split; [reflexivity |]. split; [exact Hq |].
    left. split; [by left |]. split; reflexivity.
  - unfold build_save_kwargs in Hkw. simpl in Hkw.
    rewrite (png_compress_level_exact _ Hq) in Hkw. injection Hkw as <-.
    split; [reflexivity |]. split; [reflexivity |]. split; [exact Hq |].
    right. split; [reflexivity |]. split; [reflexivity |].
    eexists. split; [reflexivity | apply spec_png_level_range].
  - injection Hkw as <-.
    split; [reflexivity |]. split; [reflexivity |]. split; [exact Hq |].
    left. split; [by right |]. split; reflexivity.
Qed.

Lemma encoder_arguments_witness :
  exists r kw,
    (compress_image Sample.int_of_str Sample.codec
       (Sample.upload "cat.png" Sample.rgba_file (Some "webp") (Some "0")) 10 7 11 ∅).2
    = RenderIndex (Some r)
    /\ Image_save Sample.codec ("RGB", [Byte.x01; Byte.x02; Byte.x03; Byte.xff]) kw
       = Ok [Byte.x01; Byte.x02; Byte.x03; Byte.xff]
    /\ kw_quality kw = Some 1.
Proof.
  destruct (compress_image Sample.int_of_str Sample.codec
              (Sample.upload "cat.png" Sample.rgba_file (Some "webp") (Some "0"))
              10 7 11 ∅) as [cache' resp] eqn:Hrun.
  assert (Hresp : exists r, resp = RenderIndex (Some r) /\ quality r = 1
                            /\ format r = "WEBP").
  { apply (f_equal snd) in Hrun. vm_compute in Hrun. subst resp.
    eexists. split; [reflexivity |]. split; reflexivity. }
  destruct Hresp as (r & -> & Hq & Hf).
  destruct (encoder_arguments _ _ _ _ _ _ _ _ _ Hrun)
    as (file & img & kw & e & Hfile & Hopen & Hentry & Hsave & _ & _ & _ & Hkw).
  exists r, kw. split; [reflexivity |].
  injection Hfile as <-. vm_compute in Hopen. injection Hopen as <-.
  rewrite Hf in Hsave, Hkw.
  assert (Hbytes : entry_bytes e = [Byte.x01; Byte.x02; Byte.x03; Byte.xff]).
  { assert (Hlook : Some e
                    = (compress_image Sample.int_of_str Sample.codec
                         (Sample.upload "cat.png" Sample.rgba_file (Some "webp") (Some "0"))
                         10 7 11 ∅).1 !! download_id r)
      by (rewrite Hrun; symmetry; exact Hentry).
    apply (f_equal snd) in Hrun. vm_compute in Hrun. injection Hrun as <-.
    vm_compute in Hlook. by injection Hlook as ->. }
  rewrite Hbytes in Hsave. destruct Hsave as (flat & Hflat & Hsave).
  vm_compute in Hflat. injection Hflat as <-.
  split; [exact Hsave |].
  destruct Hkw as [(_ & -> & _) | (Hpng & _)]; [by rewrite Hq | discriminate].
Defined.

(** ** From upload to download *)

Lemma download_image_cache (id : string) (now_sweep now_check : Z) (cache : Cache) :
  (download_image id now_sweep now_check cache).1
  = delete id (_cleanup_expired_cache now_sweep cache).
Proof.
  unfold download_image.
  destruct (_cleanup_expired_cache now_sweep cache !! id) as [e|] eqn:Hid.
  - by destruct (entry_expiry e <=? now_check).
  - simpl. by rewrite delete_id.
Qed.

(** A live entry outlasts every request that neither downloads its id nor
    inserts under it, as long as the sweep of the request runs before its
    expiry. *)
Lemma handle_keeps_live (int_of_str : string -> option Z) (pil : Pillow)
    (ev : Event) (cache : Cache) (id : string) (e : DownloadEntry) :
  cache !! id = Some e ->
  ~ may_insert id ev -> ~ downloads id ev -> sweep_time ev < entry_expiry e ->
  (handle int_of_str pil ev cache).1 !! id = Some e.
Proof.
  intros Hid Hins Hdl Hsweep.
  destruct ev as [now | req now_sweep random now_store | id' now_sweep now_check];
    simpl in *.
  - by apply cleanup_lookup_Some.
  - destruct (compress_image_cache int_of_str pil req now_sweep random now_store cache)
      as [[r Hr] | Hsame].
    + destruct (compress_image _ _ _ _ _ _ _) as [cache' resp] eqn:Hrun.
      simpl in *. subst resp.
      destruct (compress_image_rendered _ _ _ _ _ _ _ _ _ Hrun)
        as (? & ? & ? & ? & ? & ? & Hall).
      simpl in Hall. destruct Hall as (_ & _ & _ & _ & _ & _ & _ & -> & _).
      rewrite lookup_insert_ne by done. by apply cleanup_lookup_Some.
    + rewrite Hsame. by apply cleanup_lookup_Some.
  - rewrite download_image_cache, lookup_delete_ne by done.
    by apply cleanup_lookup_Some.
Qed.

Lemma run_keeps_live (int_of_str : string -> option Z) (pil : Pillow)
    (evs : list Event) (cache : Cache) (id : string) (e : DownloadEntry) :
  cache !! id = Some e ->
  Forall (fun ev => ~ may_insert id ev /\ ~ downloads id ev
                    /\ sweep_time ev < entry_expiry e) evs ->
  run int_of_str pil evs cache !! id = Some e.
Proof.
  intros Hid Hevs. revert cache Hid.
  induction Hevs as [|ev evs (Hins & Hdl & Hsweep) _ IH]; intros cache Hid; simpl;
    [done |].
  by apply IH, handle_keeps_live.
Qed.

(** X10: the bytes of a rendered upload can be downloaded once under the
    id of its result at any clock reading before the insert's reading plus
    the time to live, whatever page views, other uploads and downloads of
    other ids come in between, provided their sweeps run before that
    expiry and no upload draws the same id: the answer carries the encoded
    bytes, the mime type of the format and the file name of the result. *)
Theorem uploaded_entry_is_downloadable
    (int_of_str : string -> option Z) (pil : Pillow) (req : Request)
    (now_sweep random now_store : Z) (cache cache1 : Cache) (r : CompressResult)
    (between : list Event) (now_sweep' now_check' : Z) :
  compress_image int_of_str pil req now_sweep random now_store cache
    = (cache1, RenderIndex (Some r)) ->
  Forall (fun ev => ~ may_insert (download_id r) ev /\ ~ downloads (download_id r) ev
                    /\ sweep_time ev
                       < now_store + timedelta_seconds DOWNLOAD_CACHE_TTL_SECONDS)
    between ->
  now_sweep' < now_store + timedelta_seconds DOWNLOAD_CACHE_TTL_SECONDS ->
  now_check' < now_store + timedelta_seconds DOWNLOAD_CACHE_TTL_SECONDS ->
  exists e,
    cache1 !! download_id r = Some e
    /\ (download_image (download_id r) now_sweep' now_check'
          (run int_of_str pil between cache1)).2
       = SendFile (entry_bytes e) (output_mimetype (format r)) (filename r)
    /\ (download_image (download_id r) now_sweep' now_check'
          (run int_of_str pil between cache1)).1 !! download_id r = None.
Proof.
  intros Hrun Hbetween Hsweep Hcheck.
  destruct (compress_image_rendered _ _ _ _ _ _ _ _ _ Hrun)
    as (file & img & kw & bytes & ckb & pct & Hall).
  simpl in Hall. destruct Hall as (_ & _ & _ & _ & _ & _ & _ & Hcache & Hr).
  set (e := mk_entry bytes (output_mimetype (requested_format (form_format req)))
              (output_filename (requested_format (form_format req)))
              (now_store + timedelta_seconds DOWNLOAD_CACHE_TTL_SECONDS)).
  assert (Hid : cache1 !! download_id r = Some e).
  { rewrite Hcache, Hr. apply lookup_insert_eq. }
  assert (Hlater : run int_of_str pil between cache1 !! download_id r = Some e)
    by by apply run_keeps_live.
  exists e. split; [done |]. split.
  - rewrite (download_image_served _ _ _ _ e) by done.
    rewrite Hr. reflexivity.
  - apply download_image_removes.
Qed.

Lemma uploaded_entry_is_downloadable_witness :
  let upload := Sample.upload "cat.png" Sample.rgb_file (Some "png") (Some "80") in
  let other := Sample.upload "dog.png" Sample.rgba_file (Some "webp") None in
  let cache1 := (compress_image Sample.int_of_str Sample.codec upload 10 7 11 ∅).1 in
  let between := [GetIndex 20; PostCompress other 21 8 22;
                  GetDownload (_generate_download_id 8) 23 24] in
  (download_image (_generate_download_id 7) 300000009 300000010
     (run Sample.int_of_str Sample.codec between cache1)).2
  = SendFile [Byte.x01; Byte.x02; Byte.x03] "image/png" "compressed.png".
Proof.
  intros upload other cache1 between.
  destruct (compress_image Sample.int_of_str Sample.codec upload 10 7 11 ∅)
    as [c1 resp] eqn:Hrun.
  assert (Hresp : exists r, resp = RenderIndex (Some r)
                            /\ download_id r = _generate_download_id 7
                            /\ format r = "PNG" /\ filename r = "compressed.png").
  { apply (f_equal snd) in Hrun. vm_compute in Hrun. subst resp.
    eexists. split; [reflexivity |]. repeat split; vm_compute; reflexivity. }
  destruct Hresp as (r & -> & Hid & Hfmt & Hname).
  destruct (uploaded_entry_is_downloadable _ _ _ _ _ _ _ _ _ between
              300000009 300000010 Hrun) as (e & He & Hserved & _).
  - rewrite Hid. unfold between.
    repeat (apply Forall_cons_2;
            [split; [| split];
             [first [by intros [] | intros H; vm_compute in H; discriminate H]
             | first [by intros [] | intros H; vm_compute in H; discriminate H]
             | vm_compute; reflexivity] |]).
    apply Forall_nil_2.
  - vm_compute. reflexivity.
  - vm_compute. reflexivity.
  - subst cache1. cbn [fst]. rewrite Hid, Hfmt, Hname in Hserved.
    rewrite Hserved.
    assert (Hlook : Some e
                    = (compress_image Sample.int_of_str Sample.codec upload 10 7 11 ∅).1
                        !! download_id r) by (rewrite Hrun; symmetry; exact He).
    rewrite Hid in Hlook. vm_compute in Hlook. injection Hlook as ->.
    reflexivity.
Defined.

(** ** Where cached entries come from *)

(** X11: every entry of the cache after a sequence of requests either was
    in the cache before, unchanged, or was stored by an upload of the
    sequence: its key is the id that upload generated, a string of 32
    characters, and its expiry is that upload's clock reading plus the time
    to live.  Entries are never altered in place. *)
Theorem cached_entries_come_from_uploads
    (int_of_str : string -> option Z) (pil : Pillow)
    (evs : list Event) (cache : Cache) (k : string) (e : DownloadEntry) :
  run int_of_str pil evs cache !! k = Some e ->
  cache !! k = Some e
  \/ exists req now_sweep random now_store,
       In (PostCompress req now_sweep random now_store) evs
       /\ k = _generate_download_id random
       /\ String.length k = 32%nat
       /\ entry_expiry e = now_store + timedelta_seconds DOWNLOAD_CACHE_TTL_SECONDS.
Proof.
  revert cache. induction evs as [|ev evs IH]; intros cache Hk; simpl in Hk;
    [by left |].
  destruct (IH _ Hk) as [Hhere | (req & ns & rnd & nst & Hin & Hrest)].
  - destruct (handle_lookup_Some int_of_str pil ev cache k e Hhere)
      as [Hold | (req & ns & rnd & nst & r & -> & Hrun & ->)]; [by left |].
    right. exists req, ns, rnd, nst.
    split; [by left |]. split; [done |].
    split; [apply generate_download_id_length |].
    destruct (compress_image_rendered _ _ _ _ _ _ _ _ _ Hrun)
      as (? & ? & ? & ? & ? & ? & Hall).
    simpl in Hall. destruct Hall as (_ & _ & _ & _ & _ & _ & _ & Hcache & _).
    simpl in Hcache, Hhere. rewrite Hcache, lookup_insert_eq in Hhere.
    by injection Hhere as <-.
  - right. exists req, ns, rnd, nst. split; [by right | done].
Qed.

Lemma cached_entries_come_from_uploads_witness :
  let upload := Sample.upload "cat.png" Sample.rgb_file (Some "png") (Some "80") in
  let evs := [GetIndex 5; PostCompress upload 10 7 11] in
  let e := mk_entry [Byte.x01; Byte.x02; Byte.x03] "image/png" "compressed.png"
             300000011 in
  exists req now_sweep random now_store,
    In (PostCompress req now_sweep random now_store) evs
    /\ _generate_download_id 7 = _generate_download_id random
    /\ entry_expiry e = now_store + timedelta_seconds DOWNLOAD_CACHE_TTL_SECONDS.
Proof.
  intros upload evs e.
  destruct (cached_entries_come_from_uploads Sample.int_of_str Sample.codec
              evs ∅ (_generate_download_id 7) e)
    as [Hold | (req & ns & rnd & nst & Hin & Hk & _ & Hexp)].
  - vm_compute. reflexivity.
  - rewrite lookup_empty in Hold. discriminate.
  - by exists req, ns, rnd, nst.
Defined.

(** X12: the cache grows by uploads only: after any sequence of requests
    it holds at most as many entries as before plus the number of uploads
    in the sequence; page views and downloads never add one. *)
Theorem cache_grows_by_uploads_only
    (int_of_str : string -> option Z) (pil : Pillow)
    (evs : list Event) (cache : Cache) :
  (size (run int_of_str pil evs cache) <= size cache + count_uploads evs)%nat.
Proof.
  assert (Hsweep : forall now c, (size (_cleanup_expired_cache now c) <= size c)%nat).
  { intros now c. apply map_subseteq_size, map_subseteq_spec.
    by intros k e [? _]%cleanup_lookup_Some. }
  revert cache. induction evs as [|ev evs IH]; intros cache; simpl; [lia |].
  specialize (IH (handle int_of_str pil ev cache).1).
  destruct ev as [now | req now_sweep random now_store | id now_sweep now_check];
    simpl in *.
  - specialize (Hsweep now cache). lia.
  - assert (size (compress_image int_of_str pil req now_sweep random now_store cache).1
            <= S (size cache))%nat; [| lia].
    destruct (compress_image_cache int_of_str pil req now_sweep random now_store cache)
      as [[r Hr] | Hsame].
    + destruct (compress_image _ _ _ _ _ _ _) as [cache' resp] eqn:Hrun.
      simpl in *. subst resp.
      destruct (compress_image_rendered _ _ _ _ _ _ _ _ _ Hrun)
        as (? & ? & ? & ? & ? & ? & Hall).
      simpl in Hall. destruct Hall as (_ & _ & _ & _ & _ & _ & _ & -> & _).
      specialize (Hsweep now_sweep cache).
      match goal with
      | |- (size (<[?i := ?x]> ?m) <= _)%nat =>
          destruct (m !! i) eqn:Hi;
          [rewrite (map_size_insert_Some i x m) by eauto
          | rewrite (map_size_insert_None i x m) by done]
      end; lia.
    + rewrite Hsame. specialize (Hsweep now_sweep cache). lia.
  - rewrite download_image_cache in IH |- *.
    assert (size (delete id (_cleanup_expired_cache now_sweep cache)) <= size cache)%nat;
      [| lia].
    etransitivity; [apply map_subseteq_size, delete_subseteq | apply Hsweep].
Qed.

(** ** Download ids *)

Lemma uuid4_int_testbit (r i : Z) :
  0 <= i ->
  Z.testbit (uuid4_int r) i
  = Z.testbit (Z.shiftl 4 76) i
    || (negb (Z.testbit (Z.shiftl 0xf000 64) i)
        && (Z.testbit (Z.shiftl 0x8000 48) i
            || (negb (Z.testbit (Z.shiftl 0xc000 48) i)
                && ((i <? 128) && Z.testbit r i)))).
Proof.
  intros Hi. unfold uuid4_int. cbv zeta.
  rewrite !Z.lor_spec, !Z.land_spec, !Z.lnot_spec by lia.
  rewrite Z.lor_spec, !Z.land_spec, Z.lnot_spec by lia.
  rewrite Z.testbit_ones_nonneg by lia.
  destruct (Z.testbit (Z.shiftl 4 76) i), (Z.testbit (Z.shiftl 61440 64) i),
    (Z.testbit (Z.shiftl 32768 48) i), (Z.testbit (Z.shiftl 49152 48) i),
    (i <? 128), (Z.testbit r i); reflexivity.
Qed.

Lemma uuid4_version_nibble (r : Z) : (uuid4_int r / 16 ^ 19) mod 16 = 4.
Proof.
  change (16 ^ 19) with (2 ^ 76). change 16 with (2 ^ 4).
  rewrite <- Z.shiftr_div_pow2, <- Z.land_ones by lia.
  apply Z.bits_inj'. intros n Hn.
  rewrite Z.land_spec, Z.shiftr_spec, Z.testbit_ones_nonneg by lia.
  destruct (Z.ltb_spec n 4) as [Hlt|Hge].
  - rewrite andb_true_r, uuid4_int_testbit by lia.
    assert (n = 0 \/ n = 1 \/ n = 2 \/ n = 3) as [-> | [-> | [-> | ->]]] by lia;
      vm_compute; reflexivity.
  - rewrite andb_false_r. symmetry. apply Z.bits_above_log2; [lia |].
    change (Z.log2 4) with 2. lia.
Qed.

Lemma uuid4_variant_nibble (r : Z) : 8 <= (uuid4_int r / 16 ^ 15) mod 16 < 12.
Proof.
  set (v := (uuid4_int r / 16 ^ 15) mod 16).
  assert (Hv : 0 <= v < 16) by (apply Z.mod_pos_bound; lia).
  assert (Hbits : Z.testbit v 3 = true /\ Z.testbit v 2 = false).
  { subst v. change (16 ^ 15) with (2 ^ 60). change 16 with (2 ^ 4).
    rewrite <- Z.shiftr_div_pow2, <- Z.land_ones by lia.
    rewrite !Z.land_spec, !Z.shiftr_spec, !Z.testbit_ones_nonneg by lia.
    rewrite !uuid4_int_testbit by lia. split; vm_compute; reflexivity. }
  destruct Hbits as [H3 H2].
  assert (v = 0 \/ v = 1 \/ v = 2 \/ v = 3 \/ v = 4 \/ v = 5 \/ v = 6 \/ v = 7
          \/ v = 8 \/ v = 9 \/ v = 10 \/ v = 11 \/ v = 12 \/ v = 13 \/ v = 14 \/ v = 15)
    as Hcases by lia.
  repeat (destruct Hcases as [Hc | Hcases]; [rewrite Hc in *; first [discriminate | lia] |]).
  rewrite Hcases in *. discriminate.
Qed.

Lemma uuid4_int_range (r : Z) : 0 <= uuid4_int r < 2 ^ 128.
Proof.
  assert (Heq : uuid4_int r = uuid4_int r mod 2 ^ 128).
  { rewrite <- Z.land_ones by lia. apply Z.bits_inj'. intros n Hn.
    rewrite Z.land_spec, Z.testbit_ones_nonneg by lia.
    destruct (Z.ltb_spec n 128) as [Hlt|Hge]; [by rewrite andb_true_r |].
    rewrite andb_false_r, uuid4_int_testbit by lia.
    rewrite !Z.shiftl_spec by lia.
    rewrite (Z.bits_above_log2 4), (Z.bits_above_log2 0x8000)
      by (try (change (Z.log2 4) with 2); try (change (Z.log2 0x8000) with 15); lia).
    destruct (Z.ltb_spec n 128); [lia |].
    by rewrite !andb_false_r. }
  rewrite Heq. apply Z.mod_pos_bound. lia.
Qed.

Lemma hex_fixed_get (w : nat) (n : Z) (acc : string) (i : nat) :
  String.get (w + i) (hex_fixed w n acc) = String.get i acc.
Proof.
  revert n acc i. induction w as [|w IH]; intros n acc i; [done |].
  cbn [hex_fixed]. replace (S w + i)%nat with (w + S i)%nat by lia.
  by rewrite IH.
Qed.

Lemma hex_fixed_split (a b : nat) (n : Z) (acc : string) :
  hex_fixed (a + b) n acc = hex_fixed a (n / 16 ^ Z.of_nat b) (hex_fixed b n acc).
Proof.
  revert n acc. induction b as [|b IH]; intros n acc.
  - rewrite Nat.add_0_r. simpl. by rewrite Z.div_1_r.
  - rewrite Nat.add_succ_r. cbn [hex_fixed]. rewrite IH.
    rewrite Z.div_div by lia. do 2 f_equal.
    rewrite Nat2Z.inj_succ, Z.pow_succ_r by lia. done.
Qed.

Lemma hex_digit_lower_hex (d : Z) : 0 <= d < 16 -> is_lower_hex (hex_digit d) = true.
Proof.
  intros Hd.
  assert (d = 0 \/ d = 1 \/ d = 2 \/ d = 3 \/ d = 4 \/ d = 5 \/ d = 6 \/ d = 7
          \/ d = 8 \/ d = 9 \/ d = 10 \/ d = 11 \/ d = 12 \/ d = 13 \/ d = 14 \/ d = 15)
    as Hcases by lia.
  repeat (destruct Hcases as [-> | Hcases]; [reflexivity |]).
  by subst.
Qed.

Lemma hex_fixed_lower_hex (w : nat) (n : Z) (acc : string) :
  string_forallb is_lower_hex acc = true ->
  string_forallb is_lower_hex (hex_fixed w n acc) = true.
Proof.
  revert n acc. induction w as [|w IH]; intros n acc Hacc; [done |].
  cbn [hex_fixed]. apply IH. cbn [string_forallb].
  rewrite hex_digit_lower_hex, Hacc; [done |]. apply Z.mod_pos_bound. lia.
Qed.

Lemma hex_digit_inj (d d' : Z) :
  0 <= d < 16 -> 0 <= d' < 16 -> hex_digit d = hex_digit d' -> d = d'.
Proof.
  intros Hd Hd' Heq. apply (f_equal nat_of_ascii) in Heq.
  unfold hex_digit in Heq.
  destruct (Z.ltb_spec d 10), (Z.ltb_spec d' 10);
    rewrite !nat_ascii_embedding in Heq by lia; lia.
Qed.

Lemma hex_fixed_inj (w : nat) (n n' : Z) (acc acc' : string) :
  0 <= n < 16 ^ Z.of_nat w -> 0 <= n' < 16 ^ Z.of_nat w ->
  hex_fixed w n acc = hex_fixed w n' acc' -> n = n' /\ acc = acc'.
Proof.
  revert n n' acc acc'. induction w as [|w IH]; intros n n' acc acc' Hn Hn' Heq.
  - simpl in *. split; [lia | done].
  - cbn [hex_fixed] in Heq.
    rewrite Nat2Z.inj_succ, Z.pow_succ_r in Hn, Hn' by lia.
    apply IH in Heq as [Hq Hacc].
    + injection Hacc as Hd ->.
      apply hex_digit_inj in Hd; try (apply Z.mod_pos_bound; lia).
      split; [| done].
      rewrite (Z.div_mod n 16), (Z.div_mod n' 16) by lia. lia.
    + split; [apply Z.div_pos; lia | apply Z.div_lt_upper_bound; lia].
    + split; [apply Z.div_pos; lia | apply Z.div_lt_upper_bound; lia].
Qed.

Lemma upper_ascii_cases (c : ascii) :
  upper_ascii (upper_ascii c) = upper_ascii c
  /\ upper_ascii (lower_ascii c) = upper_ascii c
  /\ lower_ascii (upper_ascii c) = lower_ascii c.
Proof. destruct c as [[] [] [] [] [] [] [] []]; repeat split; reflexivity. Qed.

Lemma upper_cases (s : string) :
  upper (upper s) = upper s /\ upper (lower s) = upper s /\ lower (upper s) = lower s.
Proof.
  induction s as [|c s (IH1 & IH2 & IH3)]; [done |].
  destruct (upper_ascii_cases c) as (H1 & H2 & H3).
  cbn [upper lower]. by rewrite IH1, IH2, IH3, H1, H2, H3.
Qed.

(** X13: a download id is a string of 32 characters, all of them digits
    or letters a to f in lower case; the character at index 12 is the
    version digit 4 and the one at index 16 is 8, 9, a or b. *)
Theorem download_id_is_uuid4_hex (random : Z) :
  let id := _generate_download_id random in
  String.length id = 32%nat
  /\ string_forallb is_lower_hex id = true
  /\ String.get 12 id = Some "4"%char
  /\ exists v, String.get 16 id = Some v
               /\ (v = "8" \/ v = "9" \/ v = "a" \/ v = "b")%char.
Proof.
  intros id. subst id. unfold _generate_download_id.
  split; [by rewrite hex_fixed_length |].
  split; [by apply hex_fixed_lower_hex |].
  split.
  - rewrite (hex_fixed_split 12 20).
    change (hex_fixed 20 (uuid4_int random) "")
      with (hex_fixed (1 + 19) (uuid4_int random) "").
    rewrite (hex_fixed_split 1 19 (uuid4_int random) "").
    rewrite (hex_fixed_get 12 _ _ 0). cbn [hex_fixed String.get].
    change (16 ^ Z.of_nat 19) with (16 ^ 19).
    by rewrite uuid4_version_nibble.
  - rewrite (hex_fixed_split 16 16).
    change (hex_fixed 16 (uuid4_int random) "")
      with (hex_fixed (1 + 15) (uuid4_int random) "").
    rewrite (hex_fixed_split 1 15 (uuid4_int random) "").
    rewrite (hex_fixed_get 16 _ _ 0). cbn [hex_fixed String.get].
    change (16 ^ Z.of_nat 15) with (16 ^ 15).
    pose proof (uuid4_variant_nibble random) as Hv.
    eexists. split; [reflexivity |].
    assert ((uuid4_int random / 16 ^ 15) mod 16 = 8
            \/ (uuid4_int random / 16 ^ 15) mod 16 = 9
            \/ (uuid4_int random / 16 ^ 15) mod 16 = 10
            \/ (uuid4_int random / 16 ^ 15) mod 16 = 11)
      as [-> | [-> | [-> | ->]]] by lia; tauto.
Qed.

(** X14: the hexadecimal form loses nothing: two draws give the same id
    exactly when they give the same UUID, that is when they agree on the
    122 bits that [uuid4] leaves free. *)
Theorem download_ids_equal_iff_uuids_equal (random random' : Z) :
  _generate_download_id random = _generate_download_id random'
  <-> uuid4_int random = uuid4_int random'.
Proof.
  split; [| by unfold _generate_download_id; intros ->].
  unfold _generate_download_id. intros Heq.
  pose proof (uuid4_int_range random) as Hr.
  pose proof (uuid4_int_range random') as Hr'.
  change (2 ^ 128) with (16 ^ Z.of_nat 32) in Hr, Hr'.
  by apply (hex_fixed_inj 32 _ _ "" "") in Heq as [? _].
Qed.

Lemma download_ids_equal_iff_uuids_equal_witness :
  _generate_download_id 0 = _generate_download_id (2 ^ 62)
  /\ uuid4_int 1 <> uuid4_int 2.
Proof.
  split.
  - apply download_ids_equal_iff_uuids_equal. vm_compute. reflexivity.
  - intros Heq. apply download_ids_equal_iff_uuids_equal in Heq.
    vm_compute in Heq. discriminate Heq.
Defined.

(** ** Form fields *)

Lemma compress_image_ext (int_of_str : string -> option Z) (pil : Pillow)
    (req req' : Request) (now_sweep random now_store : Z) (cache : Cache) :
  files_file req = files_file req' ->
  requested_format (form_format req) = requested_format (form_format req') ->
  requested_quality int_of_str (form_quality req)
  = requested_quality int_of_str (form_quality req') ->
  compress_image int_of_str pil req now_sweep random now_store cache
  = compress_image int_of_str pil req' now_sweep random now_store cache.
Proof. intros Hfile Hfmt Hq. unfold compress_image. by rewrite Hfile, Hfmt, Hq. Qed.

(** X15: an upload without a format field, or with an empty one, is
    handled as one that asks for JPEG, and one without a quality field as
    one that asks for 40, when [int] reads "40" as 40; the format field is
    read without regard to case. *)
Theorem missing_fields_mean_jpeg_40
    (int_of_str : string -> option Z) (pil : Pillow) (file : FileStorage)
    (now_sweep random now_store : Z) (cache : Cache) :
  int_of_str "40" = Some 40 ->
  let post fmt q :=
    compress_image int_of_str pil (mk_request (Some file) fmt q)
      now_sweep random now_store cache in
  post None None = post (Some "JPEG") (Some "40")
  /\ post (Some "") None = post None None
  /\ forall fmt q, post (Some fmt) q = post (Some (upper fmt)) q.
Proof.
  intros H40 post. subst post. cbv beta.
  split; [| split].
  - apply compress_image_ext; [done | done |].
    cbn [form_quality requested_quality]. by rewrite H40.
  - by apply compress_image_ext.
  - intros fmt q. apply compress_image_ext; [done | | done].
    cbn [form_format]. destruct fmt as [|c fmt]; [done |].
    unfold requested_format.
    change (upper (String c fmt)) with (String (upper_ascii c) (upper fmt)) at 2.
    cbv iota beta.
    destruct (upper_cases (String c fmt)) as [-> _]. done.
Qed.

Lemma missing_fields_mean_jpeg_40_witness :
  compress_image Sample.int_of_str Sample.codec
    (Sample.upload "cat.png" Sample.rgb_file None None) 10 7 11 ∅
  = compress_image Sample.int_of_str Sample.codec
      (Sample.upload "cat.png" Sample.rgb_file (Some "JPEG") (Some "40")) 10 7 11 ∅.
Proof.
  destruct (missing_fields_mean_jpeg_40 Sample.int_of_str Sample.codec
              (mk_file "cat.png" (mk_stream Sample.rgb_file true)) 10 7 11 ∅)
    as [Hdefault _]; [reflexivity |].
  exact Hdefault.
Defined.

(** X16: on ASCII names the extension does not depend on the case of the
    format: jpeg, png and webp in any case give jpg, png and webp, and any
    other name gives itself in lower case. *)
Theorem extension_ignores_case (fmt : string) :
  string_forallb is_ascii_char fmt = true ->
  _safe_output_extension (upper fmt) = _safe_output_extension fmt
  /\ _safe_output_extension (lower fmt) = _safe_output_extension fmt
  /\ ((upper fmt = "JPEG" /\ _safe_output_extension fmt = "jpg")
      \/ (upper fmt = "PNG" /\ _safe_output_extension fmt = "png")
      \/ (upper fmt = "WEBP" /\ _safe_output_extension fmt = "webp")
      \/ ((upper fmt ∉ ALLOWED_OUTPUT_FORMATS) /\ _safe_output_extension fmt = lower fmt)).
Proof.
  intros _. destruct (upper_cases fmt) as (Huu & Hul & Hlu).
  unfold _safe_output_extension. rewrite Huu, Hul.
  split; [done |]. split; [done |].
  destruct (String.eqb_spec (upper fmt) "JPEG") as [-> | Hj]; [by left |].
  destruct (String.eqb_spec (upper fmt) "PNG") as [-> | Hp]; [by right; left |].
  destruct (String.eqb_spec (upper fmt) "WEBP") as [-> | Hw]; [by right; right; left |].
  right. right. right. split; [| done].
  unfold ALLOWED_OUTPUT_FORMATS. rewrite !elem_of_cons, elem_of_nil. tauto.
Qed.

Lemma extension_ignores_case_witness :
  _safe_output_extension "Jpeg" = "jpg" /\ _safe_output_extension "Tiff" = "tiff".
Proof.
  destruct (extension_ignores_case "Jpeg" eq_refl) as (_ & _ & Hj).
  destruct (extension_ignores_case "Tiff" eq_refl) as (_ & _ & Ht).
  split.
  - destruct Hj as [[_ ?] | [[? _] | [[? _] | [Hno _]]]]; [done | done | done |].
    exfalso. apply Hno. vm_compute. apply list_elem_of_here.
  - destruct Ht as [[? _] | [[? _] | [[? _] | [_ ?]]]]; done.
Defined.

(** The clamp keeps the order of the requested qualities, leaves a
    value between 1 and 100 as it is and sends anything below 1 to 1 and
    anything above 100 to 100. *)
Theorem clamp_quality_monotone_saturating (q q' : Z) :
  (q <= q' -> clamp_quality q <= clamp_quality q')
  /\ (1 <= q <= 100 -> clamp_quality q = q)
  /\ (q <= 1 -> clamp_quality q = 1)
  /\ (100 <= q -> clamp_quality q = 100).
Proof. unfold clamp_quality, MIN_QUALITY, MAX_QUALITY. repeat split; lia. Qed.

Lemma clamp_quality_monotone_saturating_witness :
  clamp_quality (-5) <= clamp_quality 250
  /\ clamp_quality 73 = 73 /\ clamp_quality (-5) = 1 /\ clamp_quality 250 = 100.
Proof.
  destruct (clamp_quality_monotone_saturating (-5) 250) as (Hmono & _ & Hlow & _).
  destruct (clamp_quality_monotone_saturating 250 250) as (_ & _ & _ & Hhigh).
  destruct (clamp_quality_monotone_saturating 73 73) as (_ & Hmid & _).
  split; [apply Hmono; lia |].
  split; [apply Hmid; lia |].
  split; [apply Hlow; lia | apply Hhigh; lia].
Defined.
